(** * node-subler: construction of SublerCLI invocations

    A shallow embedding of [src/subler.ts] (classes [Atom], [Atoms] and
    [Subler]) together with the properties of its argument rendering and
    of its destination resolution.

    Conventions of the embedding:
    - a JavaScript string is the list of its UTF-16 code units;
    - [undefined] is [None];
    - the filesystem is the oracle answering [existsSync];
    - an [Atoms] object lives in a store and is referred to by its
      address, so that the mutation performed by [buildTagCommand] is
      seen by every holder of the collection;
    - recursion that JavaScript does not bound is bounded by fuel, and
      running out of fuel is an outcome of its own. *)

From Stdlib Require Import NArith ZArith String Ascii List DecimalString Lia.
From stdpp Require Import gmap list.

(** ** JavaScript strings, regular expressions and arrays *)

Module JS.

(** A string is a sequence of UTF-16 code units. *)
Definition jsstring : Type := list N.

(** Embedding of an ASCII literal. *)
Definition str (s : string) : jsstring :=
  map N_of_ascii (list_ascii_of_string s).
#[global] Arguments str _%_string.

(** [String(i)] for a non-negative integer [i]. *)
Definition String_of_N (i : N) : jsstring :=
  str (NilZero.string_of_uint (N.to_uint i)).

(** Truthiness of a string, and of a [string | undefined]. *)
Definition truthy (s : jsstring) : bool :=
  match s with [] => false | _ :: _ => true end.

Definition truthy_opt (o : option jsstring) : bool :=
  match o with Some s => truthy s | None => false end.

(** [a || b] where [a : string | undefined] and [b : string]. *)
Definition or_else (a : option jsstring) (b : jsstring) : jsstring :=
  match a with
  | Some s => if truthy s then s else b
  | None => b
  end.

(** The code units matched by [\s]: ECMAScript WhiteSpace and
    LineTerminator. *)
Definition isWhiteSpace (c : N) : bool :=
  ((c =? 0x09) || (c =? 0x0A) || (c =? 0x0B) || (c =? 0x0C) || (c =? 0x0D)
   || (c =? 0x20) || (c =? 0xA0) || (c =? 0x1680)
   || ((0x2000 <=? c) && (c <=? 0x200A))
   || (c =? 0x2028) || (c =? 0x2029) || (c =? 0x202F) || (c =? 0x205F)
   || (c =? 0x3000) || (c =? 0xFEFF))%N.

(** Regular expressions that consume exactly one code unit. *)
Inductive cre : Type :=
| ReSpace                      (* \s *)
| ReChar (c : N)               (* a literal character *)
| ReClass (cs : list N)        (* [...] : any of the listed characters *)
| ReAlt (r1 r2 : cre).         (* r1|r2 *)

Fixpoint cre_match (r : cre) (c : N) : bool :=
  match r with
  | ReSpace => isWhiteSpace c
  | ReChar c' => (c =? c')%N
  | ReClass cs => existsb (N.eqb c) cs
  | ReAlt r1 r2 => cre_match r1 c || cre_match r2 c
  end.

(** [s.replace(/r/g, t)]: every code unit matched by [r] is replaced by
    the template [t] applied to the match (the template's [$&]). *)
Fixpoint replace_each (r : cre) (t : jsstring -> jsstring) (s : jsstring)
  : jsstring :=
  match s with
  | [] => []
  | c :: s' =>
      if cre_match r c then t [c] ++ replace_each r t s'
      else c :: replace_each r t s'
  end.

(** [s.replace(/r+/g, rep)]: every maximal run of code units matched by
    [r] is replaced by [rep]. [in_run] tells that the previous code unit
    belongs to a run whose replacement is already emitted. *)
Fixpoint replace_runs_from (r : cre) (rep : jsstring) (in_run : bool)
  (s : jsstring) : jsstring :=
  match s with
  | [] => []
  | c :: s' =>
      if cre_match r c then
        (if in_run then [] else rep) ++ replace_runs_from r rep true s'
      else c :: replace_runs_from r rep false s'
  end.

Definition replace_runs (r : cre) (rep : jsstring) (s : jsstring) : jsstring :=
  replace_runs_from r rep false s.

(** [xs.join(sep)]. *)
Fixpoint join (sep : jsstring) (xs : list jsstring) : jsstring :=
  match xs with
  | [] => []
  | [x] => x
  | x :: xs' => x ++ sep ++ join sep xs'
  end.

(** [s.slice(a, b)] for [0 <= a] and [0 <= b]. *)
Definition slice (s : jsstring) (a b : Z) : jsstring :=
  take (Z.to_nat b - Z.to_nat a) (drop (Z.to_nat a) s).

(** [s.charCodeAt(i)], [None] standing for [NaN]. *)
Definition charCodeAt (s : jsstring) (i : Z) : option N :=
  if (i <? 0)%Z then None else s !! Z.to_nat i.

End JS.
Export JS.

(** Character constants. *)
Definition CHAR_FORWARD_SLASH : N := 47.
Definition CHAR_DOT : N := 46.
Definition CHAR_BACKSLASH : N := 92.
Definition CHAR_AMPERSAND : N := 38.
Definition CHAR_SINGLE_QUOTE : N := 39.
Definition CHAR_LINE_FEED : N := 10.
Definition CHAR_CARRIAGE_RETURN : N := 13.
Definition CHAR_VERTICAL_LINE : N := 124.
Definition CHAR_SPACE : N := 32.

(** ** The host: Node's [path] module, [fs.existsSync], [process.env] *)

(** The object returned by [path.parse]. *)
Record ParsedPath : Type := mkParsedPath {
  root : jsstring;
  dir : jsstring;
  base : jsstring;
  ext : jsstring;
  name : jsstring
}.

(** The two functions of Node's [path] module that the program imports.
    They are not part of the program; it is verified against this
    interface, and [posix] below instantiates it. *)
Class PathModule : Type := {
  parse : jsstring -> ParsedPath;
  join : jsstring -> jsstring -> jsstring
}.

(** [existsSync], as a function of the state of the filesystem. *)
Definition FileSystem : Type := jsstring -> bool.

Definition existsSync (fs : FileSystem) (p : jsstring) : bool := fs p.

(** The filesystem in which exactly the listed paths exist. *)
Definition files (ps : list jsstring) : FileSystem :=
  fun p => bool_decide (p ∈ ps).

(** The filesystem after a file is created at [d]. *)
Definition create (d : jsstring) (fs : FileSystem) : FileSystem :=
  fun p => if decide (p = d) then true else fs p.

(** [process.env], restricted to the variable the program reads. *)
Record Env : Type := mkEnv {
  SUBLER_PATH : option jsstring
}.

(** *** Node's [path.posix] *)

Module posix.

(** Resolution of [.] and [..] segments (Node's [normalizeString]),
    on the segments between separators; [acc] is the list of the
    segments kept so far, last one first. *)
Fixpoint normalizeSegments (allowAboveRoot : bool) (acc : list jsstring)
  (segs : list jsstring) : list jsstring :=
  match segs with
  | [] => rev acc
  | seg :: segs' =>
      if decide (seg = [] \/ seg = [CHAR_DOT]) then
        normalizeSegments allowAboveRoot acc segs'
      else if decide (seg = [CHAR_DOT; CHAR_DOT]) then
        match acc with
        | top :: acc' =>
            if decide (top = [CHAR_DOT; CHAR_DOT]) then
              normalizeSegments allowAboveRoot
                (if allowAboveRoot then seg :: acc else acc) segs'
            else normalizeSegments allowAboveRoot acc' segs'
        | [] =>
            normalizeSegments allowAboveRoot
              (if allowAboveRoot then [seg] else []) segs'
        end
      else normalizeSegments allowAboveRoot (seg :: acc) segs'
  end.

(** [s.split('/')]; [cur] is the segment being read, reversed. *)
Fixpoint split_from (cur : jsstring) (s : jsstring) : list jsstring :=
  match s with
  | [] => [rev cur]
  | c :: s' =>
      if (c =? CHAR_FORWARD_SLASH)%N then rev cur :: split_from [] s'
      else split_from (c :: cur) s'
  end.

Definition split (s : jsstring) : list jsstring := split_from [] s.

Definition normalizeString (p : jsstring) (allowAboveRoot : bool) : jsstring :=
  JS.join [CHAR_FORWARD_SLASH] (normalizeSegments allowAboveRoot [] (split p)).

Definition normalize (p : jsstring) : jsstring :=
  match p with
  | [] => [CHAR_DOT]
  | c0 :: _ =>
      let isAbsolute := (c0 =? CHAR_FORWARD_SLASH)%N in
      let trailingSeparator :=
        match last p with
        | Some c => (c =? CHAR_FORWARD_SLASH)%N
        | None => false
        end in
      let q := normalizeString p (negb isAbsolute) in
      match q with
      | [] =>
          if isAbsolute then [CHAR_FORWARD_SLASH]
          else if trailingSeparator then [CHAR_DOT; CHAR_FORWARD_SLASH]
          else [CHAR_DOT]
      | _ :: _ =>
          let q' := if trailingSeparator then q ++ [CHAR_FORWARD_SLASH] else q in
          if isAbsolute then CHAR_FORWARD_SLASH :: q' else q'
      end
  end.

(** [path.join(a, b)]: the non-empty arguments joined by [/], then
    normalized. *)
Definition join (a b : jsstring) : jsstring :=
  match a, b with
  | [], [] => [CHAR_DOT]
  | [], _ => normalize b
  | _, [] => normalize a
  | _, _ => normalize (a ++ CHAR_FORWARD_SLASH :: b)
  end.

(** The variables of the backward scan of [path.parse]. *)
Record scan : Type := mkScan {
  startDot : Z;
  startPart : Z;
  end_ : Z;
  matchedSlash : bool;
  preDotState : Z
}.

(** One iteration of the scan at index [i], on code unit [code];
    the boolean tells whether the loop breaks. *)
Definition parse_step (i : Z) (code : N) (st : scan) : scan * bool :=
  if (code =? CHAR_FORWARD_SLASH)%N then
    if negb (matchedSlash st) then
      (mkScan (startDot st) (i + 1) (end_ st) (matchedSlash st)
         (preDotState st), true)
    else (st, false)
  else
    let st1 :=
      if (end_ st =? -1)%Z then
        mkScan (startDot st) (startPart st) (i + 1) false (preDotState st)
      else st in
    if (code =? CHAR_DOT)%N then
      if (startDot st1 =? -1)%Z then
        (mkScan i (startPart st1) (end_ st1) (matchedSlash st1)
           (preDotState st1), false)
      else if negb (preDotState st1 =? 1)%Z then
        (mkScan (startDot st1) (startPart st1) (end_ st1) (matchedSlash st1) 1,
         false)
      else (st1, false)
    else if negb (startDot st1 =? -1)%Z then
      (mkScan (startDot st1) (startPart st1) (end_ st1) (matchedSlash st1)
         (-1), false)
    else (st1, false).

(** [for (; i >= start; --i)]; [n] bounds the number of iterations. *)
Fixpoint parse_loop (p : jsstring) (start : Z) (n : nat) (i : Z) (st : scan)
  : scan :=
  match n with
  | O => st
  | S n' =>
      if (i <? start)%Z then st
      else
        match charCodeAt p i with
        | None => st
        | Some code =>
            let '(st', stop) := parse_step i code st in
            if stop then st' else parse_loop p start n' (i - 1) st'
        end
  end.

Definition parse (p : jsstring) : ParsedPath :=
  match p with
  | [] => mkParsedPath [] [] [] [] []
  | c0 :: _ =>
      let isAbsolute := (c0 =? CHAR_FORWARD_SLASH)%N in
      let root := if isAbsolute then [CHAR_FORWARD_SLASH] else [] in
      let start := if isAbsolute then 1%Z else 0%Z in
      let st :=
        parse_loop p start (length p) (Z.of_nat (length p) - 1)
          (mkScan (-1) 0 (-1) true 0) in
      let start' :=
        if (startPart st =? 0)%Z && isAbsolute then 1%Z else startPart st in
      let '(base, name, ext) :=
        if (end_ st =? -1)%Z then ([], [], [])
        else if (startDot st =? -1)%Z
                || (preDotState st =? 0)%Z
                || ((preDotState st =? 1)%Z
                    && (startDot st =? end_ st - 1)%Z
                    && (startDot st =? startPart st + 1)%Z)
        then (slice p start' (end_ st), slice p start' (end_ st), [])
        else (slice p start' (end_ st), slice p start' (startDot st),
              slice p (startDot st) (end_ st)) in
      let dir :=
        if (0 <? startPart st)%Z then slice p 0 (startPart st - 1)
        else if isAbsolute then [CHAR_FORWARD_SLASH] else [] in
      mkParsedPath root dir base ext name
  end.

End posix.

#[global] Instance posix_path : PathModule :=
  {| parse := posix.parse; join := posix.join |}.

(** ** The program: [src/subler.ts] *)

(** Represents the type of media for an input file. *)
Inductive MediaKind : Type :=
| MOVIE
| MUSIC
| AUDIOBOOK
| MUSIC_VIDEO
| TV_SHOW
| BOOKLET
| RINGTONE.

(** The string value of each member of the enum, as the source spells it. *)
Definition MediaKind_value (k : MediaKind) : jsstring :=
  match k with
  | MOVIE => str "Movie"
  | MUSIC => str "Music"
  | AUDIOBOOK => str "Audiobook"
  | MUSIC_VIDEO => str "Music Video"
  | TV_SHOW => str "TV Show"
  | BOOKLET => str "Booklet"
  | RINGTONE => str "Rightone"
  end.

(** The result of [buildTagCommand]. *)
Record SublerCommand : Type := mkSublerCommand {
  command : jsstring;
  args : list jsstring
}.

(** A metadata atom. *)
Record AtomStruct : Type := mkAtom {
  tag : jsstring;
  value : jsstring
}.

#[global] Instance AtomStruct_eq_dec : EqDecision AtomStruct.
Proof. solve_decision. Defined.

(** Addresses of [Atoms] objects, and the store holding the [inner] array
    of each of them. *)
Definition loc : Type := nat.

Abbreviation Store := (gmap loc (list AtomStruct)).

(** The configuration held by a [Subler] object. [atoms] is a reference:
    the collection is the caller's object, not a copy of it. *)
Record SublerStruct : Type := mkSubler {
  source : jsstring;
  dest : option jsstring;
  chaptersPreview : bool;
  optimize : bool;
  organizeGroups : bool;
  bitChunk64 : bool;
  atoms : loc;
  mediaKind : option MediaKind
}.

(** The constant object [AtomTag], as the list of its entries in the order
    of the source: the order and the repeated label are observable through
    [Object.values]. *)
Definition AtomTag : list (jsstring * jsstring) :=
  [
    (str "artist", str "Artist");
    (str "albumArtist", str "Album Artist");
    (str "album", str "Album");
    (str "grouping", str "Grouping");
    (str "composer", str "Composer");
    (str "comments", str "Comments");
    (str "genre", str "Genre");
    (str "releaseDate", str "Release Date");
    (str "trackNumber", str "Track #");
    (str "diskNumber", str "Disk #");
    (str "tempo", str "Tempo");
    (str "tvShow", str "TV Show");
    (str "tvEpisodeNumber", str "TV Episode #");
    (str "tvNetwork", str "TV Network");
    (str "tvEpisodeId", str "TV Episode ID");
    (str "tvSeason", str "TV Season");
    (str "description", str "Description");
    (str "longDescription", str "Long Description");
    (str "seriesDescription", str "Series Description");
    (str "hdVideo", str "HD Video");
    (str "ratingAnnotation", str "Rating Annotation");
    (str "studio", str "Studio");
    (str "cast", str "Cast");
    (str "director", str "Director");
    (str "gapless", str "Gapless");
    (str "codirector", str "Codirector");
    (str "producers", str "Producers");
    (str "screenwriters", str "Screenwriters");
    (str "lyrics", str "Lyrics");
    (str "copyright", str "Copyright");
    (str "encodingTool", str "Encoding Tool");
    (str "encoded_by", str "Encoded By");
    (str "keywords", str "Keywords");
    (str "category", str "Category");
    (str "contentId", str "contentID");
    (str "artistId", str "artistID");
    (str "playlistId", str "playlistID");
    (str "genreId", str "genreID");
    (str "composerId", str "composerID");
    (str "xid", str "XID");
    (str "itunesCccount", str "iTunes Account");
    (str "itunesAccountType", str "iTunes Account Type");
    (str "itunesCountry", str "iTunes Country");
    (str "trackSubTitle", str "Track Sub-Title");
    (str "songDescription", str "Song Description");
    (str "artDirector", str "Art Director");
    (str "arranger", str "Arranger");
    (str "lyricist", str "Lyricist");
    (str "acknowledgement", str "Acknowledgement");
    (str "conductor", str "Conductor");
    (str "linearNotes", str "Linear Notes");
    (str "recordCompany", str "Record Company");
    (str "originalArtist", str "Original Artist");
    (str "phonogramRights", str "Phonogram Rights");
    (str "producer", str "Producer");
    (str "performer", str "Performer");
    (str "publisher", str "Publisher");
    (str "soundEngineer", str "Sound Engineer");
    (str "soloist", str "Soloist");
    (str "credits", str "Credits");
    (str "thanks", str "Thanks");
    (str "onlineExtras", str "Online Extras");
    (str "executiveproducer", str "Executive Producer");
    (str "sortName", str "Sort Name");
    (str "sortArtist", str "Sort Artist");
    (str "sortAlbumArtist", str "Sort Album Artist");
    (str "sortAlbum", str "Sort Album");
    (str "sortComposer", str "Sort Composer");
    (str "sortTvShow", str "Sort TV Show");
    (str "artwork", str "Artwork");
    (str "name", str "Name");
    (str "title", str "Name");
    (str "rating", str "Rating");
    (str "mediaKind", str "Media Kind")
  ].

(** Property access [AtomTag.ident]. *)
Definition AtomTag_get (ident : jsstring) : option jsstring :=
  snd <$> find (fun e => bool_decide (fst e = ident)) AtomTag.

(** [Object.values(o)]. *)
Definition Object_values (o : list (jsstring * jsstring)) : list jsstring :=
  map snd o.

(** Outcomes of a call: a returned value, a thrown [Error] with its
    message, or exhaustion of the fuel given to the recursion. *)
Inductive outcome (A : Type) : Type :=
| Return (a : A)
| Throw (message : jsstring)
| OutOfFuel.
Arguments Return {A} a.
Arguments Throw {A} message.
Arguments OutOfFuel {A}.

(** Sequencing: a throw or an exhaustion ends the computation. *)
#[global] Instance outcome_bind : MBind outcome := fun A B k m =>
  match m with
  | Return a => k a
  | Throw e => Throw e
  | OutOfFuel => OutOfFuel
  end.

(** The messages of the two errors the program throws. *)
Definition SourceNotFound : jsstring := str "Source file does not exist.".
Definition DestinationNotFound : jsstring := str "Destination Not Found!".

Module Atom.

(** [/[\n|\r]+/g]: a character class, whose members are the line feed,
    the vertical line and the carriage return. *)
Definition newlines : cre :=
  ReClass [CHAR_LINE_FEED; CHAR_VERTICAL_LINE; CHAR_CARRIAGE_RETURN].

(** [/'/g] *)
Definition quote : cre := ReChar CHAR_SINGLE_QUOTE.

(** The replacement template [\$&]: a backslash, then the match. *)
Definition backslashed (m : jsstring) : jsstring := CHAR_BACKSLASH :: m.

(** [Atom.arg] *)
Definition arg (a : AtomStruct) : jsstring :=
  let escapedValue :=
    replace_each quote backslashed
      (replace_runs newlines [CHAR_SPACE] (value a)) in
  let escapedValue :=
    if negb (bool_decide (Some (tag a) = AtomTag_get (str "artwork")))
    then str "'" ++ escapedValue ++ str "'"
    else escapedValue in
  str "{'" ++ tag a ++ str "':" ++ escapedValue ++ str "}".

End Atom.

Module Atoms.

(** [this.inner] of the object at [l]. *)
Definition inner (st : Store) (l : loc) : list AtomStruct :=
  default [] (st !! l).

(** [Atoms.metadataTags] *)
Definition metadataTags : list jsstring :=
  fold_left (fun params t => params ++ [t]) (Object_values AtomTag) [].

(** [Atoms.args] *)
Definition args (st : Store) (l : loc) : list jsstring :=
  if (0 <? length (inner st l))%nat then
    [str "-metadata"; JS.join [] (map Atom.arg (inner st l))]
  else [].

(** [Atoms.addAtom]: [this.inner.push(atom)] *)
Definition addAtom (l : loc) (a : AtomStruct) (st : Store) : Store :=
  alter (fun xs => xs ++ [a]) l st.

(** [Atoms.addAtoms]: [this.inner.push(...atoms.inner)] *)
Definition addAtoms (l l' : loc) (st : Store) : Store :=
  alter (fun xs => xs ++ inner st l') l st.

(** [Atoms.add]: [this.inner.push(new Atom(tag, val))] *)
Definition add (l : loc) (t v : jsstring) (st : Store) : Store :=
  addAtom l (mkAtom t v) st.

End Atoms.

Module Subler.
Section WithPath.

Context {path : PathModule}.

(** The constructor. *)
Definition new (source : jsstring) (atoms : loc) : SublerStruct :=
  {| source := source;
     dest := None;
     chaptersPreview := true;
     optimize := true;
     organizeGroups := true;
     bitChunk64 := true;
     atoms := atoms;
     mediaKind := Some MOVIE |}.

(** [Subler.executable] *)
Definition executable (env : Env) : jsstring :=
  or_else (SUBLER_PATH env) (str "/usr/local/bin/SublerCli").

(** The path tried by [nextAvailablePath] at index [i]. *)
Definition candidate (p : jsstring) (i : N) : jsstring :=
  let path := parse p in
  join (dir path) (name path ++ str "." ++ String_of_N i ++ ext path).

(** [Subler.nextAvailablePath]. The value of the recursive call is not
    returned: when the call comes back, control reaches the end of the
    function, whose value is [undefined]. *)
Fixpoint nextAvailablePath (fuel : nat) (fs : FileSystem) (p : jsstring)
  (i : N) : outcome (option jsstring) :=
  match fuel with
  | O => OutOfFuel
  | S fuel' =>
      let dest := candidate p i in
      if existsSync fs dest then
        nextAvailablePath fuel' fs p (i + 1) ;;
        Return None
      else Return (Some dest)
  end.

(** [Subler.determineDest] *)
Definition determineDest (fuel : nat) (fs : FileSystem) (s : SublerStruct)
  : outcome (option jsstring) :=
  if truthy_opt (dest s) then
    let d := default [] (dest s) in
    if existsSync fs d then nextAvailablePath fuel fs d 0
    else Return (Some d)
  else nextAvailablePath fuel fs (source s) 0.

(** [/\s|&|'/g] *)
Definition shell_special : cre :=
  ReAlt ReSpace (ReAlt (ReChar CHAR_AMPERSAND) (ReChar CHAR_SINGLE_QUOTE)).

(** The switches pushed after the metadata, each under its own test. *)
Definition switches (s : SublerStruct) : list jsstring :=
  (if chaptersPreview s then [str "-chapterspreview"] else [])
  ++ (if optimize s then [str "-optimize"] else [])
  ++ (if organizeGroups s then [str "-organizegroups"] else [])
  ++ (if bitChunk64 s then [str "-64bitchunk"] else []).

(** [Subler.buildTagCommand]: the outcome of the call and the store it
    leaves. *)
Definition buildTagCommand (fuel : nat) (env : Env) (fs : FileSystem)
  (st : Store) (s : SublerStruct) : outcome SublerCommand * Store :=
  if negb (existsSync fs (source s)) then (Throw SourceNotFound, st)
  else
    let st :=
      if truthy_opt (MediaKind_value <$> mediaKind s) then
        match mediaKind s with
        | Some k =>
            Atoms.addAtom (atoms s) (mkAtom (str "Media Kind") (MediaKind_value k)) st
        | None => st
        end
      else st in
    (dest ← determineDest fuel fs s;
     if negb (truthy_opt dest) then Throw DestinationNotFound
     else
       let dest := default [] dest in
       let atoms := Atoms.args st (atoms s) in
       let escapedSource :=
         replace_each shell_special Atom.backslashed (source s) in
       let args := [str "-source"; escapedSource] in
       let escapedDest := replace_each shell_special Atom.backslashed dest in
       let args := args ++ [str "-dest"; escapedDest] in
       let metaTags := atoms in
       let args := args ++ metaTags in
       let args := args ++ switches s in
       Return {| command := executable env; args := args |},
     st).

(** The chainable setters. *)
Definition optimise (v : bool) (s : SublerStruct) : SublerStruct :=
  {| source := source s; dest := dest s;
     chaptersPreview := chaptersPreview s; optimize := v;
     organizeGroups := organizeGroups s; bitChunk64 := bitChunk64 s;
     atoms := atoms s; mediaKind := mediaKind s |}.

Definition set_mediaKind (k : MediaKind) (s : SublerStruct) : SublerStruct :=
  {| source := source s; dest := dest s;
     chaptersPreview := chaptersPreview s; optimize := optimize s;
     organizeGroups := organizeGroups s; bitChunk64 := bitChunk64 s;
     atoms := atoms s; mediaKind := Some k |}.

Definition set_dest (d : jsstring) (s : SublerStruct) : SublerStruct :=
  {| source := source s; dest := Some d;
     chaptersPreview := chaptersPreview s; optimize := optimize s;
     organizeGroups := organizeGroups s; bitChunk64 := bitChunk64 s;
     atoms := atoms s; mediaKind := mediaKind s |}.

(** Successive calls of [buildTagCommand] on the same builder, one per
    element of [calls] (the fuel and the filesystem of that call); the
    outcomes are collected and the store is threaded through. *)
Fixpoint buildTagCommands (calls : list (nat * FileSystem)) (env : Env)
  (st : Store) (s : SublerStruct) : list (outcome SublerCommand) * Store :=
  match calls with
  | [] => ([], st)
  | (fuel, fs) :: calls' =>
      let '(o, st') := buildTagCommand fuel env fs st s in
      let '(os, st'') := buildTagCommands calls' env st' s in
      (o :: os, st'')
  end.

End WithPath.
End Subler.

(** The store left by a call of [buildTagCommand] whose source exists. *)
Definition pushed (st : Store) (s : SublerStruct) : Store :=
  match mediaKind s with
  | Some k =>
      Atoms.addAtom (atoms s) (mkAtom (str "Media Kind") (MediaKind_value k)) st
  | None => st
  end.

(** A collection of one atom, allocated at address 0: the collection of
    the test suite. *)
Definition example_atoms : list AtomStruct :=
  [mkAtom (str "Title") (str "Foo Bar Title")].

Definition example_store : Store := {[ 0%nat := example_atoms ]}.

(** ** The rendering and escaping rules, as the specification words them *)

Module Spec.

(** Newline and carriage return. *)
Definition is_line_break (c : N) : bool :=
  (c =? CHAR_LINE_FEED)%N || (c =? CHAR_CARRIAGE_RETURN)%N.

(** Each maximal run of line breaks becomes one space: a line break
    yields the space when it is the last of its run, nothing otherwise;
    every other character is kept. *)
Fixpoint collapse_line_breaks (v : jsstring) : jsstring :=
  match v with
  | [] => []
  | c :: v' =>
      if is_line_break c then
        match v' with
        | c' :: _ =>
            if is_line_break c' then collapse_line_breaks v'
            else CHAR_SPACE :: collapse_line_breaks v'
        | [] => [CHAR_SPACE]
        end
      else c :: collapse_line_breaks v'
  end.

(** Each single quote is prefixed by a backslash. *)
Definition escape_quotes (v : jsstring) : jsstring :=
  flat_map (fun c => if (c =? CHAR_SINGLE_QUOTE)%N
                     then [CHAR_BACKSLASH; c] else [c]) v.

(** The rendering of an atom: [{'t':e'}], [e'] quoted unless the tag is
    Artwork. *)
Definition arg (a : AtomStruct) : jsstring :=
  let e := escape_quotes (collapse_line_breaks (value a)) in
  let e' := if decide (tag a = str "Artwork") then e
            else CHAR_SINGLE_QUOTE :: e ++ [CHAR_SINGLE_QUOTE] in
  str "{'" ++ tag a ++ str "':" ++ e' ++ str "}".

(** The characters the shell escaping acts on. *)
Definition shell_special (c : N) : bool :=
  isWhiteSpace c || (c =? CHAR_AMPERSAND)%N || (c =? CHAR_SINGLE_QUOTE)%N.

(** Each special character becomes a backslash followed by itself; the
    other characters are unchanged. *)
Definition shell_escape (p : jsstring) : jsstring :=
  flat_map (fun c => if shell_special c then [CHAR_BACKSLASH; c] else [c]) p.

(** The switches in their fixed order, each kept exactly when its flag
    is enabled. *)
Definition enabled_switches (s : SublerStruct) : list jsstring :=
  map snd
    (filter (fun e => fst e = true)
       [(chaptersPreview s, str "-chapterspreview");
        (optimize s, str "-optimize");
        (organizeGroups s, str "-organizegroups");
        (bitChunk64 s, str "-64bitchunk")]).

(** The metadata flag: absent for the empty collection, else the flag
    name and the renderings of the atoms, concatenated in order. *)
Definition metadata_flag (xs : list AtomStruct) : list jsstring :=
  match xs with
  | [] => []
  | _ :: _ => [str "-metadata"; concat (map Atom.arg xs)]
  end.

End Spec.

(** The command returned for the source [/m/a.mp4], alone on the
    filesystem, with the constructor's settings and the sample collection;
    and the store the call leaves. *)
Definition example_command : SublerCommand :=
  {| command := str "/usr/local/bin/SublerCli";
     args := [str "-source"; str "/m/a.mp4"; str "-dest"; str "/m/a.0.mp4";
              str "-metadata"; str "{'Title':'Foo Bar Title'}{'Media Kind':'Movie'}";
              str "-chapterspreview"; str "-optimize";
              str "-organizegroups"; str "-64bitchunk"] |}.

Definition example_store_after : Store :=
  <[0%nat := example_atoms ++ [mkAtom (str "Media Kind") (str "Movie")]]>
    example_store.

(** ** The rest of the interface of [Subler] and [Atoms] *)

(** The builders a caller can obtain: the constructor on a source and a
    collection, followed by any chain of the setters [optimise],
    [mediaKind] and [dest]. *)
Inductive configured (src : jsstring) (l : loc) : SublerStruct -> Prop :=
| configured_new : configured src l (Subler.new src l)
| configured_optimise (v : bool) (s : SublerStruct) :
    configured src l s -> configured src l (Subler.optimise v s)
| configured_mediaKind (k : MediaKind) (s : SublerStruct) :
    configured src l s -> configured src l (Subler.set_mediaKind k s)
| configured_dest (d : jsstring) (s : SublerStruct) :
    configured src l s -> configured src l (Subler.set_dest d s).

(** [Object.entries(o)]. *)
Definition Object_entries (o : list (jsstring * jsstring))
  : list (jsstring * jsstring) := o.

(** The loop that closes the module: for every entry [ident, tag] of
    [AtomTag] it assigns to [Atoms.prototype[ident]] a function that
    pushes [new Atom(tag, value)]. The function assigned is represented
    by the tag it has captured; a later assignment to the same name
    replaces an earlier one. *)
Definition tag_methods : gmap jsstring jsstring :=
  fold_left (fun proto e => <[fst e := snd e]> proto) (Object_entries AtomTag) ∅.

(** The call [atoms[ident](value)] of a method assigned by that loop, on
    the collection at [l]; [None] when the loop has assigned no method of
    that name. *)
Definition call_tag_method (ident value : jsstring) (l : loc) (st : Store)
  : option Store :=
  match tag_methods !! ident with
  | Some t => Some (Atoms.addAtom l (mkAtom t value) st)
  | None => None
  end.

(** The names that the classes [Builder] and [Atoms] define themselves:
    their methods, the constructor and the field [inner]. *)
Definition class_member_names : list jsstring :=
  [str "constructor"; str "inner"; str "addAtom"; str "add"; str "build";
   str "metadataTags"; str "args"; str "addAtoms"; str "atoms"].

(** The candidates of the suffix search on [p] from index [i], [n] of
    them. *)
Definition candidates {path : PathModule} (p : jsstring) (i : N) (n : nat)
  : list jsstring :=
  map (fun k => Subler.candidate p (i + N.of_nat k)) (seq 0 n).

(** The path on which [determineDest] starts a suffix search, if it
    starts one. *)
Definition search_root (s : SublerStruct) : jsstring :=
  if truthy_opt (dest s) then default [] (dest s) else source s.

(** ** Node's [path.posix] on sample paths *)

Example posix_parse_rel :
  parse (str "test.mp4") = mkParsedPath [] [] (str "test.mp4") (str ".mp4") (str "test").
Proof. reflexivity. Qed.

Example posix_parse_abs :
  parse (str "/home/u/a b.tar.gz")
  = mkParsedPath (str "/") (str "/home/u") (str "a b.tar.gz") (str ".gz") (str "a b.tar").
Proof. reflexivity. Qed.

Example posix_parse_dotfile :
  parse (str "dir/.bashrc") = mkParsedPath [] (str "dir") (str ".bashrc") [] (str ".bashrc").
Proof. reflexivity. Qed.

Example posix_parse_root_file :
  parse (str "/a.mp4") = mkParsedPath (str "/") (str "/") (str "a.mp4") (str ".mp4") (str "a").
Proof. reflexivity. Qed.

Example posix_join_1 : join (str "/home/u") (str "a.0.mp4") = str "/home/u/a.0.mp4".
Proof. reflexivity. Qed.

Example posix_join_2 : join [] (str "a.0.mp4") = str "a.0.mp4".
Proof. reflexivity. Qed.

Example posix_join_3 : join (str "x/../y/.") (str "a.0.mp4") = str "y/a.0.mp4".
Proof. reflexivity. Qed.

Example posix_join_4 : join (str "/") (str "a.0.mp4") = str "/a.0.mp4".
Proof. reflexivity. Qed.

(** ** Strings and regular expressions *)

Lemma join_empty_separator (xs : list jsstring) : JS.join [] xs = concat xs.
Proof.
  induction xs as [|x xs IH]; [reflexivity|].
  destruct xs as [|y ys].
  - simpl. now rewrite app_nil_r.
  - change (JS.join [] (x :: y :: ys)) with (x ++ [] ++ JS.join [] (y :: ys)).
    now rewrite IH.
Qed.

Lemma truthy_nonempty (s : jsstring) : truthy s = true <-> s <> [].
Proof. destruct s; simpl; split; congruence. Qed.

Lemma MediaKind_value_truthy (k : MediaKind) : truthy (MediaKind_value k) = true.
Proof. destruct k; reflexivity. Qed.

Lemma AtomTag_artwork : AtomTag_get (str "artwork") = Some (str "Artwork").
Proof. reflexivity. Qed.

(** The global replacement of [/'/g] is the quote escaping of the
    specification. *)
Lemma replace_quote_spec (v : jsstring) :
  replace_each Atom.quote Atom.backslashed v = Spec.escape_quotes v.
Proof.
  induction v as [|c v IH]; [reflexivity|].
  simpl. destruct (c =? CHAR_SINGLE_QUOTE)%N; simpl; now rewrite IH.
Qed.

(** The global replacement of [/\s|&|'/g] is the shell escaping of the
    specification. *)
Lemma replace_shell_special_spec (p : jsstring) :
  replace_each Subler.shell_special Atom.backslashed p = Spec.shell_escape p.
Proof.
  induction p as [|c p IH]; [reflexivity|].
  simpl. unfold Spec.shell_special. rewrite <- orb_assoc.
  destruct (isWhiteSpace c || ((c =? CHAR_AMPERSAND)%N || (c =? CHAR_SINGLE_QUOTE)%N));
    simpl; now rewrite IH.
Qed.

(** On a character other than the vertical line, the class of [arg]
    matches exactly the line breaks. *)
Lemma newlines_match_line_break (c : N) :
  c <> CHAR_VERTICAL_LINE ->
  cre_match Atom.newlines c = Spec.is_line_break c.
Proof.
  intros Hc. unfold Spec.is_line_break. simpl.
  destruct (N.eqb_spec c CHAR_VERTICAL_LINE) as [->|_]; [congruence|].
  now rewrite orb_false_r.
Qed.

(** Without a vertical line in the value, the run replacement of [arg] is
    the collapse of the specification; the second part relates a run that
    has started to the look-ahead of [collapse_line_breaks]. *)
Lemma replace_newlines_collapse (v : jsstring) :
  Forall (fun c => c <> CHAR_VERTICAL_LINE) v ->
  replace_runs_from Atom.newlines [CHAR_SPACE] false v = Spec.collapse_line_breaks v
  /\ (forall c, Spec.is_line_break c = true ->
        Spec.collapse_line_breaks (c :: v)
        = CHAR_SPACE :: replace_runs_from Atom.newlines [CHAR_SPACE] true v).
Proof.
  induction 1 as [|x v Hx Hv [IH1 IH2]].
  - split; [reflexivity|]. intros c Hc. simpl. now rewrite Hc.
  - assert (Hm := newlines_match_line_break x Hx).
    split.
    + cbn [replace_runs_from]. rewrite Hm.
      destruct (Spec.is_line_break x) eqn:Ex.
      * now rewrite (IH2 x Ex).
      * cbn [Spec.collapse_line_breaks]. rewrite Ex. now rewrite IH1.
    + intros c Hc.
      cbn [replace_runs_from]. rewrite Hm.
      change (Spec.collapse_line_breaks (c :: x :: v))
        with (if Spec.is_line_break c then
                if Spec.is_line_break x then Spec.collapse_line_breaks (x :: v)
                else CHAR_SPACE :: Spec.collapse_line_breaks (x :: v)
              else c :: Spec.collapse_line_breaks (x :: v)).
      rewrite Hc. destruct (Spec.is_line_break x) eqn:Ex.
      * now rewrite (IH2 x Ex).
      * cbn [Spec.collapse_line_breaks]. rewrite Ex. now rewrite IH1.
Qed.

(** [arg] meets the rendering of the specification on every atom whose
    value has no vertical line. *)
Lemma arg_spec_without_vertical_line (a : AtomStruct) :
  Forall (fun c => c <> CHAR_VERTICAL_LINE) (value a) ->
  Atom.arg a = Spec.arg a.
Proof.
  intros Hv. unfold Atom.arg, Spec.arg, replace_runs.
  rewrite replace_quote_spec, (proj1 (replace_newlines_collapse _ Hv)).
  rewrite AtomTag_artwork.
  destruct (decide (tag a = str "Artwork")) as [E|E].
  - rewrite bool_decide_eq_true_2 by (now rewrite E). reflexivity.
  - rewrite bool_decide_eq_false_2 by congruence. reflexivity.
Qed.

(** ** The store *)

Lemma addAtom_allocated (st : Store) (l : loc) (xs : list AtomStruct) (a : AtomStruct) :
  st !! l = Some xs -> Atoms.addAtom l a st = <[l := xs ++ [a]]> st.
Proof.
  intros Hl. unfold Atoms.addAtom. apply map_eq. intros i.
  rewrite lookup_alter, lookup_insert.
  case_decide; [subst i; now rewrite Hl | reflexivity].
Qed.

Lemma inner_allocated (st : Store) (l : loc) (xs : list AtomStruct) :
  st !! l = Some xs -> Atoms.inner st l = xs.
Proof. intros Hl. unfold Atoms.inner. now rewrite Hl. Qed.

Lemma args_metadata_flag (st : Store) (l : loc) :
  Atoms.args st l = Spec.metadata_flag (Atoms.inner st l).
Proof.
  unfold Atoms.args. destruct (Atoms.inner st l) as [|a xs]; [reflexivity|].
  cbn [length Nat.ltb Nat.leb Spec.metadata_flag].
  now rewrite join_empty_separator.
Qed.

Lemma switches_enabled (s : SublerStruct) :
  Subler.switches s = Spec.enabled_switches s.
Proof.
  unfold Subler.switches, Spec.enabled_switches.
  destruct (chaptersPreview s), (optimize s), (organizeGroups s), (bitChunk64 s);
    reflexivity.
Qed.

(** ** Destination resolution *)

Section Resolution.

Context {path : PathModule}.
Implicit Types (fs : FileSystem) (p d : jsstring) (i : N) (fuel : nat).

Lemma nextAvailablePath_never_throws fuel fs p i m :
  Subler.nextAvailablePath fuel fs p i <> Throw m.
Proof.
  revert i. induction fuel as [|fuel IH]; intros i; simpl; [discriminate|].
  destruct (existsSync fs (Subler.candidate p i)); [|discriminate].
  specialize (IH (i + 1)%N).
  destruct (Subler.nextAvailablePath fuel fs p (i + 1)); simpl; congruence.
Qed.

(** A free candidate is returned. *)
Lemma nextAvailablePath_free fuel fs p i :
  existsSync fs (Subler.candidate p i) = false ->
  Subler.nextAvailablePath (S fuel) fs p i = Return (Some (Subler.candidate p i)).
Proof. intros Hf. simpl. now rewrite Hf. Qed.

(** When the candidate at [i] exists, no path comes back, whatever the
    later candidates are. *)
Lemma nextAvailablePath_taken fuel fs p i :
  existsSync fs (Subler.candidate p i) = true ->
  Subler.nextAvailablePath fuel fs p i = Return None
  \/ Subler.nextAvailablePath fuel fs p i = OutOfFuel.
Proof.
  intros Ht. destruct fuel as [|fuel]; simpl; [now right|].
  rewrite Ht.
  pose proof (nextAvailablePath_never_throws fuel fs p (i + 1)) as Hn.
  destruct (Subler.nextAvailablePath fuel fs p (i + 1)); simpl; auto.
  now destruct (Hn message).
Qed.

(** A returned path is the candidate at the starting index, and no file
    exists there. *)
Lemma nextAvailablePath_Some fuel fs p i d :
  Subler.nextAvailablePath fuel fs p i = Return (Some d) ->
  d = Subler.candidate p i /\ existsSync fs d = false.
Proof.
  destruct fuel as [|fuel]; simpl; [discriminate|].
  destruct (existsSync fs (Subler.candidate p i)) eqn:E.
  - destruct (Subler.nextAvailablePath fuel fs p (i + 1)); simpl; discriminate.
  - intros [= <-]. auto.
Qed.

(** More fuel does not change the value of a call that has returned. *)
Lemma nextAvailablePath_fuel_mono fuel extra fs p i r :
  Subler.nextAvailablePath fuel fs p i = Return r ->
  Subler.nextAvailablePath (fuel + extra) fs p i = Return r.
Proof.
  revert i r. induction fuel as [|fuel IH]; intros i r; simpl; [discriminate|].
  destruct (existsSync fs (Subler.candidate p i)); [|trivial].
  destruct (Subler.nextAvailablePath fuel fs p (i + 1)) eqn:E; simpl;
    try discriminate.
  intros [= <-]. now rewrite (IH _ _ E).
Qed.

(** The value of the search: with the candidates of [k] successive
    indices taken and the next one free, the call returns; it returns
    the candidate when [k] is zero and [undefined] otherwise. *)
Lemma nextAvailablePath_skips (k : nat) fuel fs p i :
  (forall j : nat, (j < k)%nat ->
     existsSync fs (Subler.candidate p (i + N.of_nat j)) = true) ->
  existsSync fs (Subler.candidate p (i + N.of_nat k)) = false ->
  Subler.nextAvailablePath (S k + fuel) fs p i
  = Return (match k with
            | O => Some (Subler.candidate p i)
            | S _ => None
            end).
Proof.
  revert i. induction k as [|k IH]; intros i Ht Hf.
  - rewrite N.add_0_r in Hf. now apply nextAvailablePath_free.
  - change (S (S k) + fuel)%nat with (S (S k + fuel)).
    cbn [Subler.nextAvailablePath].
    specialize (Ht 0%nat ltac:(lia)) as Ht0. rewrite N.add_0_r in Ht0.
    rewrite Ht0. rewrite (IH (i + 1)%N); [reflexivity| |].
    + intros j Hj. specialize (Ht (S j) ltac:(lia)).
      now replace (i + 1 + N.of_nat j)%N with (i + N.of_nat (S j))%N by lia.
    + now replace (i + 1 + N.of_nat k)%N with (i + N.of_nat (S k))%N by lia.
Qed.

Lemma determineDest_never_throws fuel fs s m :
  Subler.determineDest fuel fs s <> Throw m.
Proof.
  unfold Subler.determineDest.
  destruct (truthy_opt (dest s)); [destruct (existsSync fs _)|];
    try discriminate; apply nextAvailablePath_never_throws.
Qed.

(** No file exists at a resolved destination. *)
Lemma determineDest_fresh fuel fs s d :
  Subler.determineDest fuel fs s = Return (Some d) -> existsSync fs d = false.
Proof.
  unfold Subler.determineDest.
  destruct (truthy_opt (dest s)).
  - destruct (existsSync fs (default [] (dest s))) eqn:E.
    + intros Hn. now apply nextAvailablePath_Some in Hn.
    + now intros [= <-].
  - intros Hn. now apply nextAvailablePath_Some in Hn.
Qed.

Lemma determineDest_fuel_mono fuel extra fs s r :
  Subler.determineDest fuel fs s = Return r ->
  Subler.determineDest (fuel + extra) fs s = Return r.
Proof.
  unfold Subler.determineDest.
  destruct (truthy_opt (dest s)); [destruct (existsSync fs _)|]; trivial;
    apply nextAvailablePath_fuel_mono.
Qed.

(** ** [buildTagCommand] *)

Lemma buildTagCommand_store fuel env fs st s :
  existsSync fs (source s) = true ->
  (Subler.buildTagCommand fuel env fs st s).2 = pushed st s.
Proof.
  intros He. unfold Subler.buildTagCommand, pushed. rewrite He. simpl.
  destruct (mediaKind s) as [k|]; simpl; [|reflexivity].
  now rewrite MediaKind_value_truthy.
Qed.

(** What a returning call has done. *)
Lemma buildTagCommand_Return fuel env fs st s cmd st' :
  Subler.buildTagCommand fuel env fs st s = (Return cmd, st') ->
  existsSync fs (source s) = true
  /\ st' = pushed st s
  /\ exists d,
       Subler.determineDest fuel fs s = Return (Some d)
       /\ d <> []
       /\ cmd = {| command := Subler.executable env;
                   args := [str "-source";
                            replace_each Subler.shell_special Atom.backslashed (source s);
                            str "-dest";
                            replace_each Subler.shell_special Atom.backslashed d]
                           ++ Atoms.args st' (atoms s)
                           ++ Subler.switches s |}.
Proof.
  intros Hb.
  destruct (existsSync fs (source s)) eqn:He.
  - pose proof (buildTagCommand_store fuel env fs st s He) as Hst.
    rewrite Hb in Hst. simpl in Hst. subst st'.
    split; [reflexivity|]. split; [reflexivity|].
    revert Hb. unfold Subler.buildTagCommand. rewrite He. simpl negb. cbv iota.
    fold (pushed st s).
    replace (if truthy_opt (MediaKind_value <$> mediaKind s)
             then pushed st s else st) with (pushed st s).
    2:{ unfold pushed. destruct (mediaKind s); simpl; [|reflexivity].
        now rewrite MediaKind_value_truthy. }
    destruct (Subler.determineDest fuel fs s) as [[d|]| |] eqn:Ed; simpl;
      try discriminate.
    destruct d as [|c d]; simpl; [discriminate|].
    intros [= <-]. exists (c :: d). repeat split; discriminate.
  - unfold Subler.buildTagCommand in Hb. rewrite He in Hb. discriminate.
Qed.

(** More fuel does not change a call that has not run out of it. *)
Lemma buildTagCommand_fuel_mono fuel extra env fs st s o st' :
  Subler.buildTagCommand fuel env fs st s = (o, st') ->
  o <> OutOfFuel ->
  Subler.buildTagCommand (fuel + extra) env fs st s = (o, st').
Proof.
  unfold Subler.buildTagCommand.
  destruct (negb (existsSync fs (source s))); [trivial|].
  pose proof (determineDest_never_throws fuel fs s) as Hn.
  destruct (Subler.determineDest fuel fs s) as [r|m|] eqn:Ed.
  - now rewrite (determineDest_fuel_mono _ extra _ _ _ Ed).
  - now destruct (Hn m).
  - simpl. intros [= <- <-]. congruence.
Qed.

End Resolution.

(** ** The reach of the destination check *)

(** Without explicit destination, as soon as a file exists at the first
    candidate derived from the source, a call of [buildTagCommand] that
    comes back throws the error of the destination check. *)
Lemma buildTagCommand_first_candidate_taken {path : PathModule}
  (fuel : nat) (env : Env) (fs : FileSystem) (st : Store) (s : SublerStruct) :
  existsSync fs (source s) = true ->
  truthy_opt (dest s) = false ->
  existsSync fs (Subler.candidate (source s) 0) = true ->
  (Subler.buildTagCommand fuel env fs st s).1 = Throw DestinationNotFound
  \/ (Subler.buildTagCommand fuel env fs st s).1 = OutOfFuel.
Proof.
  intros He Hd Ht. unfold Subler.buildTagCommand. rewrite He. simpl negb. cbv iota.
  unfold Subler.determineDest. rewrite Hd.
  destruct (nextAvailablePath_taken fuel fs (source s) 0 Ht) as [-> | ->];
    simpl; auto.
Qed.

(** ** The claims *)

(** *** Sample inputs *)

Lemma example_store_lookup : example_store !! 0%nat = Some example_atoms.
Proof. vm_compute. reflexivity. Qed.

(** C1 (evaluation at the failing input). With [a.mp4] and [a.0.mp4]
    present and [a.1.mp4] absent, the suffix search started at index 0 on
    [a.mp4] does not return [a.1.mp4], the first free candidate: it returns
    [undefined], for every amount of fuel that lets it return, and so does
    [determineDest] on a builder without explicit destination. *)
Theorem nextAvailablePath_taken_returns_undefined :
  let fs := files [str "a.mp4"; str "a.0.mp4"] in
  existsSync fs (str "a.mp4") = true
  /\ Subler.candidate (str "a.mp4") 0 = str "a.0.mp4"
  /\ existsSync fs (str "a.0.mp4") = true
  /\ Subler.candidate (str "a.mp4") 1 = str "a.1.mp4"
  /\ existsSync fs (str "a.1.mp4") = false
  /\ (forall extra : nat,
        Subler.nextAvailablePath (2 + extra) fs (str "a.mp4") 0 = Return None)
  /\ (forall extra : nat,
        Subler.determineDest (2 + extra) fs (Subler.new (str "a.mp4") 0%nat)
        = Return None).
Proof.
  cbv zeta. repeat split; try (vm_compute; reflexivity).
Qed.

(** C2 (evaluation at the failing input). The source [a.mp4] exists, and
    so does [a.0.mp4]: [buildTagCommand] throws the error of the
    destination check, although [a.1.mp4] is free. *)
Theorem buildTagCommand_destination_not_found :
  let fs := files [str "a.mp4"; str "a.0.mp4"] in
  let s := Subler.new (str "a.mp4") 0%nat in
  existsSync fs (source s) = true
  /\ existsSync fs (Subler.candidate (source s) 1) = false
  /\ forall (extra : nat) (env : Env),
       (Subler.buildTagCommand (2 + extra) env fs example_store s).1
       = Throw DestinationNotFound.
Proof.
  cbv zeta. repeat split; try (vm_compute; reflexivity).
Qed.

(** C3 (evaluation at the failing input). A vertical line in the value is
    neither a newline, nor a carriage return, nor a single quote; [arg]
    replaces it by a space, where the rendering of the specification
    keeps it. *)
Theorem arg_replaces_vertical_line :
  Atom.arg (mkAtom (str "Comments") (str "a|b")) = str "{'Comments':'a b'}"
  /\ Spec.arg (mkAtom (str "Comments") (str "a|b")) = str "{'Comments':'a|b'}".
Proof. split; reflexivity. Qed.

(** C4 (counterexample). A builder with the default media kind, whose
    source does not exist: the call leaves the collection as it was. *)
Lemma buildTagCommand_missing_source_appends_nothing :
  ~ (forall (fuel : nat) (env : Env) (fs : FileSystem) (st : Store)
            (s : SublerStruct) (k : MediaKind) (xs : list AtomStruct),
       mediaKind s = Some k ->
       st !! atoms s = Some xs ->
       (Subler.buildTagCommand fuel env fs st s).2 !! atoms s
       = Some (xs ++ [mkAtom (str "Media Kind") (MediaKind_value k)])).
Proof.
  intros H.
  specialize (H 1%nat (mkEnv None) (files []) example_store
                (Subler.new (str "a.mp4") 0%nat) MOVIE example_atoms
                eq_refl example_store_lookup).
  vm_compute in H. discriminate H.
Qed.

(** C4 (amended). On a builder whose media kind is set (as the constructor
    sets it, to Movie), every call of [buildTagCommand] made while the
    source exists appends exactly one atom, of tag Media Kind and of the
    value of the kind, to the collection the builder refers to, whatever
    the outcome of the call; successive such calls append one atom each. *)
Theorem buildTagCommand_appends_media_kind {path : PathModule}
  (env : Env) (s : SublerStruct) (k : MediaKind) :
  mediaKind s = Some k ->
  let a := mkAtom (str "Media Kind") (MediaKind_value k) in
  (forall src l, mediaKind (Subler.new src l) = Some MOVIE)
  /\ (forall (fuel : nat) (fs : FileSystem) (st : Store) (xs : list AtomStruct),
        st !! atoms s = Some xs ->
        existsSync fs (source s) = true ->
        (Subler.buildTagCommand fuel env fs st s).2 = <[atoms s := xs ++ [a]]> st)
  /\ (forall (calls : list (nat * FileSystem)) (st : Store) (xs : list AtomStruct),
        st !! atoms s = Some xs ->
        Forall (fun c => existsSync c.2 (source s) = true) calls ->
        (Subler.buildTagCommands calls env st s).2
        = <[atoms s := xs ++ replicate (length calls) a]> st).
Proof.
  intros Hk a.
  assert (Hone : forall fuel fs (st : Store) xs,
             st !! atoms s = Some xs ->
             existsSync fs (source s) = true ->
             (Subler.buildTagCommand fuel env fs st s).2 = <[atoms s := xs ++ [a]]> st).
  { intros fuel fs st xs Hl He.
    rewrite (buildTagCommand_store _ _ _ _ _ He). unfold pushed. rewrite Hk.
    now apply addAtom_allocated. }
  split; [reflexivity|]. split; [exact Hone|].
  induction calls as [|[fuel fs] calls IH]; intros st xs Hl Hall.
  - simpl. rewrite app_nil_r. symmetry. now apply insert_id.
  - apply Forall_cons in Hall as [He Hall]. simpl in He.
    cbn [Subler.buildTagCommands].
    specialize (Hone fuel fs st xs Hl He).
    destruct (Subler.buildTagCommand fuel env fs st s) as [o st1].
    simpl in Hone. subst st1.
    specialize (IH (<[atoms s := xs ++ [a]]> st) (xs ++ [a])
                  (lookup_insert_eq _ _ _) Hall).
    destruct (Subler.buildTagCommands calls env _ s) as [os st2].
    simpl in IH |- *. subst st2.
    rewrite insert_insert_eq. now rewrite <- app_assoc.
Qed.

Lemma buildTagCommand_appends_media_kind_witness :
  let s := Subler.new (str "a.mp4") 0%nat in
  let fs := files [str "a.mp4"; str "a.0.mp4"] in
  (Subler.buildTagCommands [(2%nat, fs); (2%nat, fs)] (mkEnv None) example_store s).2
  = <[0%nat := example_atoms
               ++ replicate 2 (mkAtom (str "Media Kind") (str "Movie"))]> example_store.
Proof.
  cbv zeta.
  apply (proj2 (proj2 (buildTagCommand_appends_media_kind
                         (mkEnv None) (Subler.new (str "a.mp4") 0%nat) MOVIE eq_refl))
           [(2%nat, files [str "a.mp4"; str "a.0.mp4"]);
            (2%nat, files [str "a.mp4"; str "a.0.mp4"])]
           example_store example_atoms).
  - vm_compute. reflexivity.
  - repeat constructor.
Defined.

(** Two returning calls on the same builder and the same filesystem give
    the same destination argument, whatever the stores, the fuel and the
    environment of each. *)
Lemma buildTagCommand_same_destination {path : PathModule}
  (fuel1 fuel2 : nat) (env1 env2 : Env) (fs : FileSystem) (st1 st2 : Store)
  (s : SublerStruct) (cmd1 cmd2 : SublerCommand) (st1' st2' : Store) :
  Subler.buildTagCommand fuel1 env1 fs st1 s = (Return cmd1, st1') ->
  Subler.buildTagCommand fuel2 env2 fs st2 s = (Return cmd2, st2') ->
  args cmd1 !! 3%nat = args cmd2 !! 3%nat.
Proof.
  intros H1 H2.
  apply buildTagCommand_Return in H1 as (_ & _ & d1 & Hd1 & _ & ->).
  apply buildTagCommand_Return in H2 as (_ & _ & d2 & Hd2 & _ & ->).
  apply (determineDest_fuel_mono _ fuel2) in Hd1.
  apply (determineDest_fuel_mono _ fuel1) in Hd2.
  rewrite Nat.add_comm in Hd2. rewrite Hd1 in Hd2.
  injection Hd2 as <-. reflexivity.
Qed.

(** C5 (evaluation at the failing input). A builder on [a.mp4] without
    explicit destination, [a.mp4] being the only file: the first call
    resolves the destination to [a.0.mp4]. Once that file is created, the
    second call does not select [a.1.mp4], which is free: it throws the
    error of the destination check. *)
Theorem second_build_after_creation_throws :
  let s := Subler.new (str "a.mp4") 0%nat in
  let fs0 := files [str "a.mp4"] in
  let fs1 := create (str "a.0.mp4") fs0 in
  forall (extra : nat) (env : Env),
    (exists cmd1,
        (Subler.buildTagCommand (1 + extra) env fs0 example_store s).1 = Return cmd1
        /\ args cmd1 !! 3%nat = Some (str "a.0.mp4"))
    /\ existsSync fs1 (str "a.0.mp4") = true
    /\ Subler.candidate (source s) 1 = str "a.1.mp4"
    /\ existsSync fs1 (str "a.1.mp4") = false
    /\ (Subler.buildTagCommands [((1 + extra)%nat, fs0); ((2 + extra)%nat, fs1)]
          env example_store s).1 !! 1%nat
       = Some (Throw DestinationNotFound).
Proof.
  cbv zeta. intros extra env. split.
  - eexists. split; vm_compute; reflexivity.
  - repeat split; vm_compute; reflexivity.
Qed.

(** C6. When no file exists at the source path, [buildTagCommand] throws
    the error of the source check and leaves the store, hence the atoms
    collection, as it was. This holds for every amount of fuel, zero
    included, and for every destination setting: no step of the
    destination resolution is taken. *)
Theorem buildTagCommand_source_not_found {path : PathModule}
  (fuel : nat) (env : Env) (fs : FileSystem) (st : Store) (s : SublerStruct) :
  existsSync fs (source s) = false ->
  Subler.buildTagCommand fuel env fs st s = (Throw SourceNotFound, st).
Proof.
  intros He. unfold Subler.buildTagCommand. now rewrite He.
Qed.

Lemma buildTagCommand_source_not_found_witness :
  Subler.buildTagCommand 0 (mkEnv None) (files [str "b.mp4"]) example_store
    (Subler.new (str "a.mp4") 0%nat)
  = (Throw (str "Source file does not exist."), example_store).
Proof.
  apply (buildTagCommand_source_not_found 0 (mkEnv None) (files [str "b.mp4"])
           example_store (Subler.new (str "a.mp4") 0%nat)).
  vm_compute. reflexivity.
Defined.

(** C7. [args] returns the empty list for the empty collection; for a
    non-empty collection it returns two elements, [-metadata] and the
    concatenation of the renderings of the atoms in the order of the
    collection. [addAtom] puts the new atom last, whatever the tags
    already present, so that its rendering comes last. *)
Theorem Atoms_args_render (st : Store) (l : loc) (xs : list AtomStruct) :
  st !! l = Some xs ->
  (xs = [] -> Atoms.args st l = [])
  /\ (xs <> [] -> Atoms.args st l = [str "-metadata"; concat (map Atom.arg xs)])
  /\ (forall a : AtomStruct,
        Atoms.args (Atoms.addAtom l a st) l
        = [str "-metadata"; concat (map Atom.arg xs) ++ Atom.arg a]).
Proof.
  intros Hl. repeat split.
  - intros ->. rewrite args_metadata_flag, (inner_allocated _ _ _ Hl). reflexivity.
  - intros Hne. rewrite args_metadata_flag, (inner_allocated _ _ _ Hl).
    destruct xs; [congruence|reflexivity].
  - intros a. rewrite args_metadata_flag.
    rewrite (addAtom_allocated _ _ _ _ Hl).
    rewrite (inner_allocated _ l (xs ++ [a])) by apply lookup_insert_eq.
    destruct xs as [|x xs].
    + simpl. now rewrite app_nil_r.
    + cbn [app Spec.metadata_flag].
      change (x :: xs ++ [a]) with ((x :: xs) ++ [a]).
      rewrite map_app, concat_app. simpl. now rewrite app_nil_r.
Qed.

Lemma Atoms_args_render_witness :
  Atoms.args example_store 0%nat = [str "-metadata"; str "{'Title':'Foo Bar Title'}"]
  /\ Atoms.args (Atoms.addAtom 0%nat (mkAtom (str "Title") (str "It's"))
                   example_store) 0%nat
     = [str "-metadata"; str "{'Title':'Foo Bar Title'}{'Title':'It\'s'}"].
Proof.
  destruct (Atoms_args_render example_store 0%nat example_atoms example_store_lookup)
    as (_ & Hne & Hadd).
  split.
  - rewrite Hne; [reflexivity|discriminate].
  - rewrite Hadd. reflexivity.
Defined.

(** C8. In the command returned by [buildTagCommand], the argument after
    [-source] is the source path, and the argument after [-dest] is the
    resolved destination, each with every whitespace character, ampersand
    and single quote replaced by a backslash followed by that character,
    and every other character unchanged. *)
Theorem buildTagCommand_escapes_paths {path : PathModule}
  (fuel : nat) (env : Env) (fs : FileSystem) (st : Store) (s : SublerStruct)
  (cmd : SublerCommand) (st' : Store) :
  Subler.buildTagCommand fuel env fs st s = (Return cmd, st') ->
  exists d : jsstring,
    Subler.determineDest fuel fs s = Return (Some d)
    /\ args cmd !! 0%nat = Some (str "-source")
    /\ args cmd !! 1%nat = Some (Spec.shell_escape (source s))
    /\ args cmd !! 2%nat = Some (str "-dest")
    /\ args cmd !! 3%nat = Some (Spec.shell_escape d).
Proof.
  intros Hb.
  apply buildTagCommand_Return in Hb as (_ & _ & d & Hd & _ & ->).
  exists d. rewrite <- !replace_shell_special_spec. repeat split; assumption.
Qed.

Lemma buildTagCommand_escapes_paths_witness :
  let s := Subler.set_dest (str "dest & path") (Subler.new (str "/x/te st.mp4") 0%nat) in
  let cmd :=
    {| command := str "/usr/local/bin/SublerCli";
       args := [str "-source"; str "/x/te\ st.mp4";
                str "-dest"; str "dest\ \&\ path";
                str "-metadata"; str "{'Title':'Foo Bar Title'}{'Media Kind':'Movie'}";
                str "-chapterspreview"; str "-optimize";
                str "-organizegroups"; str "-64bitchunk"] |} in
  let st' :=
    <[0%nat := example_atoms ++ [mkAtom (str "Media Kind") (str "Movie")]]>
      example_store in
  Subler.buildTagCommand 1 (mkEnv None) (files [str "/x/te st.mp4"]) example_store s
  = (Return cmd, st')
  /\ Spec.shell_escape (str "/x/te st.mp4") = str "/x/te\ st.mp4"
  /\ Spec.shell_escape (str "dest & path") = str "dest\ \&\ path"
  /\ args cmd !! 3%nat = Some (Spec.shell_escape (str "dest & path")).
Proof.
  cbv zeta.
  assert (Hb : Subler.buildTagCommand 1 (mkEnv None) (files [str "/x/te st.mp4"])
                 example_store
                 (Subler.set_dest (str "dest & path")
                    (Subler.new (str "/x/te st.mp4") 0%nat))
               = (Return
                    {| command := str "/usr/local/bin/SublerCli";
                       args := [str "-source"; str "/x/te\ st.mp4";
                                str "-dest"; str "dest\ \&\ path";
                                str "-metadata";
                                str "{'Title':'Foo Bar Title'}{'Media Kind':'Movie'}";
                                str "-chapterspreview"; str "-optimize";
                                str "-organizegroups"; str "-64bitchunk"] |},
                  <[0%nat := example_atoms ++ [mkAtom (str "Media Kind") (str "Movie")]]>
                    example_store))
    by (vm_compute; reflexivity).
  split; [exact Hb|].
  split; [reflexivity|]. split; [reflexivity|].
  destruct (buildTagCommand_escapes_paths _ _ _ _ _ _ _ Hb) as (d & Hd & _ & _ & _ & H3).
  vm_compute in Hd. injection Hd as <-. exact H3.
Defined.

(** C9 (counterexample). With the override variable set to the empty
    string, the returned executable is not the value of the variable: it
    is the default path. *)
Lemma buildTagCommand_empty_override :
  ~ (forall (fuel : nat) (env : Env) (fs : FileSystem) (st : Store)
            (s : SublerStruct) (cmd : SublerCommand) (st' : Store) (p : jsstring),
       Subler.buildTagCommand fuel env fs st s = (Return cmd, st') ->
       SUBLER_PATH env = Some p ->
       command cmd = p).
Proof.
  intros H.
  pose (r := Subler.buildTagCommand 1 (mkEnv (Some [])) (files [str "a.mp4"])
               example_store (Subler.new (str "a.mp4") 0%nat)).
  assert (Hr : exists cmd st', r = (Return cmd, st')
                               /\ command cmd = str "/usr/local/bin/SublerCli").
  { eexists _, _. split; vm_compute; reflexivity. }
  destruct Hr as (cmd & st' & Hr & Hc).
  specialize (H _ _ _ _ _ _ _ [] Hr eq_refl).
  rewrite Hc in H. discriminate H.
Qed.

(** C9 (amended). The argument list of a returned command is, in this
    order: [-source] and the escaped source, [-dest] and the escaped
    destination, the metadata flag of the collection if it is not empty,
    then those of the four switches whose flag is enabled, in their fixed
    order. The executable is the value of the override variable when it is
    set to a non-empty string, and the default path otherwise. *)
Theorem buildTagCommand_argument_order {path : PathModule}
  (fuel : nat) (env : Env) (fs : FileSystem) (st : Store) (s : SublerStruct)
  (cmd : SublerCommand) (st' : Store) :
  Subler.buildTagCommand fuel env fs st s = (Return cmd, st') ->
  exists d : jsstring,
    Subler.determineDest fuel fs s = Return (Some d)
    /\ args cmd
       = [str "-source"; Spec.shell_escape (source s);
          str "-dest"; Spec.shell_escape d]
         ++ Spec.metadata_flag (Atoms.inner st' (atoms s))
         ++ Spec.enabled_switches s
    /\ command cmd
       = match SUBLER_PATH env with
         | Some p => if decide (p = []) then str "/usr/local/bin/SublerCli" else p
         | None => str "/usr/local/bin/SublerCli"
         end.
Proof.
  intros Hb.
  apply buildTagCommand_Return in Hb as (_ & _ & d & Hd & _ & ->).
  exists d. split; [assumption|]. split.
  - cbn [args]. rewrite !replace_shell_special_spec, args_metadata_flag,
      switches_enabled. reflexivity.
  - cbn [command]. unfold Subler.executable, or_else.
    destruct (SUBLER_PATH env) as [[|c p]|]; reflexivity.
Qed.

Lemma buildTagCommand_argument_order_witness :
  let s := Subler.optimise false (Subler.new (str "a.mp4") 0%nat) in
  let cmd :=
    {| command := str "/opt/bin/SublerCli";
       args := [str "-source"; str "a.mp4"; str "-dest"; str "a.0.mp4";
                str "-metadata"; str "{'Title':'Foo Bar Title'}{'Media Kind':'Movie'}";
                str "-chapterspreview"; str "-organizegroups"; str "-64bitchunk"] |} in
  let st' :=
    <[0%nat := example_atoms ++ [mkAtom (str "Media Kind") (str "Movie")]]>
      example_store in
  Subler.buildTagCommand 1 (mkEnv (Some (str "/opt/bin/SublerCli")))
    (files [str "a.mp4"]) example_store s
  = (Return cmd, st')
  /\ args cmd
     = [str "-source"; Spec.shell_escape (str "a.mp4");
        str "-dest"; Spec.shell_escape (str "a.0.mp4")]
       ++ Spec.metadata_flag (Atoms.inner st' 0%nat)
       ++ Spec.enabled_switches s.
Proof.
  cbv zeta.
  assert (Hb : Subler.buildTagCommand 1 (mkEnv (Some (str "/opt/bin/SublerCli")))
                 (files [str "a.mp4"]) example_store
                 (Subler.optimise false (Subler.new (str "a.mp4") 0%nat))
               = (Return
                    {| command := str "/opt/bin/SublerCli";
                       args := [str "-source"; str "a.mp4"; str "-dest"; str "a.0.mp4";
                                str "-metadata";
                                str "{'Title':'Foo Bar Title'}{'Media Kind':'Movie'}";
                                str "-chapterspreview"; str "-organizegroups";
                                str "-64bitchunk"] |},
                  <[0%nat := example_atoms ++ [mkAtom (str "Media Kind") (str "Movie")]]>
                    example_store))
    by (vm_compute; reflexivity).
  split; [exact Hb|].
  destruct (buildTagCommand_argument_order _ _ _ _ _ _ _ Hb) as (d & Hd & Ha & _).
  vm_compute in Hd. injection Hd as <-. exact Ha.
Defined.

(** C10. [metadataTags] returns the labels of the entries of [AtomTag],
    one per key and in the order of the table. The keys [name] and [title]
    carry the same label, Name, which therefore occurs twice in the list;
    every other label of the list, Artist and Media Kind among them,
    occurs once. The list has a repeated element. *)
Theorem metadataTags_labels :
  Atoms.metadataTags = map snd AtomTag
  /\ length Atoms.metadataTags = length AtomTag
  /\ NoDup (map fst AtomTag)
  /\ AtomTag_get (str "name") = Some (str "Name")
  /\ AtomTag_get (str "title") = Some (str "Name")
  /\ Forall (fun t => length (filter (fun t' => t' = t) Atoms.metadataTags)
                      = if decide (t = str "Name") then 2%nat else 1%nat)
       Atoms.metadataTags
  /\ str "Artist" ∈ Atoms.metadataTags
  /\ str "Media Kind" ∈ Atoms.metadataTags
  /\ ~ NoDup Atoms.metadataTags.
Proof.
  assert (Hm : Atoms.metadataTags = map snd AtomTag) by (vm_compute; reflexivity).
  split; [exact Hm|].
  split; [now rewrite Hm, length_map|].
  repeat split; compute_done.
Qed.

(** ** A sample call *)

Lemma example_call :
  Subler.buildTagCommand 1 (mkEnv None) (files [str "/m/a.mp4"]) example_store
    (Subler.new (str "/m/a.mp4") 0%nat)
  = (Return example_command, example_store_after).
Proof. vm_compute. reflexivity. Qed.

(** ** Further properties of the destination resolution *)

(** A free candidate within the reach of the fuel makes the search
    return. *)
Lemma nextAvailablePath_free_within {path : PathModule}
  (fuel : nat) (fs : FileSystem) (p : jsstring) (i : N) (k : nat) :
  (k < fuel)%nat ->
  existsSync fs (Subler.candidate p (i + N.of_nat k)) = false ->
  exists r, Subler.nextAvailablePath fuel fs p i = Return r.
Proof.
  revert i k. induction fuel as [|fuel IH]; intros i k Hk Hf; [lia|].
  cbn [Subler.nextAvailablePath].
  destruct (existsSync fs (Subler.candidate p i)) eqn:E; [|eauto].
  destruct k as [|k].
  - rewrite N.add_0_r in Hf. congruence.
  - destruct (IH (i + 1)%N k ltac:(lia)) as [r Hr].
    + now replace (i + 1 + N.of_nat k)%N with (i + N.of_nat (S k))%N by lia.
    + rewrite Hr. simpl. eauto.
Qed.

(** A search that has returned has met a free candidate within the
    reach of its fuel. *)
Lemma nextAvailablePath_Return_free {path : PathModule}
  (fuel : nat) (fs : FileSystem) (p : jsstring) (i : N) (r : option jsstring) :
  Subler.nextAvailablePath fuel fs p i = Return r ->
  exists k : nat, (k < fuel)%nat
    /\ existsSync fs (Subler.candidate p (i + N.of_nat k)) = false.
Proof.
  revert i r. induction fuel as [|fuel IH]; intros i r; simpl; [discriminate|].
  destruct (existsSync fs (Subler.candidate p i)) eqn:E.
  - destruct (Subler.nextAvailablePath fuel fs p (i + 1)) as [r'| |] eqn:En;
      simpl; try discriminate.
    intros _. destruct (IH _ _ En) as (k & Hk & Hf).
    exists (S k). split; [lia|].
    now replace (i + N.of_nat (S k))%N with (i + 1 + N.of_nat k)%N by lia.
  - intros _. exists 0%nat. split; [lia|]. now rewrite N.add_0_r.
Qed.

(** X1. The suffix search returns exactly when one of the candidates
    within the reach of its fuel is free; the value returned is the
    candidate of the starting index when that one is free, and
    [undefined] in every other case. *)
Theorem nextAvailablePath_returns_iff {path : PathModule}
  (fuel : nat) (fs : FileSystem) (p : jsstring) (i : N) :
  ((exists r, Subler.nextAvailablePath fuel fs p i = Return r)
   <-> (exists k : nat, (k < fuel)%nat
          /\ existsSync fs (Subler.candidate p (i + N.of_nat k)) = false))
  /\ (forall r, Subler.nextAvailablePath fuel fs p i = Return r ->
        r = if existsSync fs (Subler.candidate p i) then None
            else Some (Subler.candidate p i)).
Proof.
  split; [split|].
  - intros [r Hr]. eapply nextAvailablePath_Return_free, Hr.
  - intros (k & Hk & Hf). eapply nextAvailablePath_free_within; eauto.
  - intros r Hr. destruct (existsSync fs (Subler.candidate p i)) eqn:E.
    + destruct (nextAvailablePath_taken fuel fs p i E) as [H|H];
        rewrite H in Hr; congruence.
    + destruct fuel as [|fuel]; [discriminate|].
      rewrite (nextAvailablePath_free _ _ _ _ E) in Hr. congruence.
Qed.

(** Among more pairwise distinct paths than the filesystem has files,
    one does not exist. *)
Lemma candidates_pigeonhole (ps l : list jsstring) :
  NoDup l -> (length ps < length l)%nat ->
  exists k x, l !! k = Some x /\ existsSync (files ps) x = false.
Proof.
  intros Hnd Hlen.
  destruct (decide (Forall (fun x => x ∈ ps) l)) as [Hall|Hnot].
  - exfalso. assert (l ⊆+ ps) as Hsub.
    { apply NoDup_submseteq; [assumption|]. now apply Forall_forall. }
    apply submseteq_length in Hsub. lia.
  - apply not_Forall_Exists in Hnot; [|intros x; apply _].
    apply Exists_exists in Hnot as (x & Hx & Hnx).
    apply list_elem_of_lookup in Hx as [k Hk].
    exists k, x. split; [assumption|].
    unfold existsSync, files. now apply bool_decide_eq_false_2.
Qed.

(** X2. On a filesystem with finitely many existing paths [ps], and
    provided the candidates of the first [length ps + 1] indices are
    pairwise distinct, [length ps + 1] units of fuel let the suffix search
    return, and [buildTagCommand] comes to an end: it returns or throws. *)
Theorem buildTagCommand_terminates {path : PathModule}
  (ps : list jsstring) (env : Env)
  (st : Store) (s : SublerStruct) :
  NoDup (candidates (search_root s) 0 (S (length ps))) ->
  (exists r, Subler.nextAvailablePath (S (length ps)) (files ps) (search_root s) 0
             = Return r)
  /\ (Subler.buildTagCommand (S (length ps)) env (files ps) st s).1 <> OutOfFuel.
Proof.
  intros Hnd.
  assert (Hret : exists r, Subler.nextAvailablePath (S (length ps)) (files ps)
                             (search_root s) 0 = Return r).
  { destruct (candidates_pigeonhole ps _ Hnd) as (k & x & Hk & Hx).
    { unfold candidates. rewrite length_map, length_seq. lia. }
    unfold candidates in Hk. rewrite list_lookup_fmap in Hk.
    destruct (seq 0 (S (length ps)) !! k) as [k'|] eqn:Ek; [|discriminate].
    apply lookup_seq in Ek as [-> Hlt]. simpl in Hk. injection Hk as <-.
    eapply nextAvailablePath_free_within; eauto. }
  split; [exact Hret|].
  destruct Hret as [r Hr].
  unfold Subler.buildTagCommand.
  destruct (negb (existsSync (files ps) (source s))); [discriminate|].
  cbn [fst].
  assert (Hd : exists r', Subler.determineDest (S (length ps)) (files ps) s = Return r').
  { unfold Subler.determineDest. unfold search_root in Hr.
    destruct (truthy_opt (dest s)); [|eauto].
    destruct (existsSync (files ps) (default [] (dest s))); eauto. }
  destruct Hd as [r' ->]. simpl.
  destruct (negb (truthy_opt r')); discriminate.
Qed.

Lemma buildTagCommand_terminates_witness :
  let ps := [str "/m/a.mp4"; str "/m/a.0.mp4"; str "/m/a.1.mp4"] in
  (exists r, Subler.nextAvailablePath 4 (files ps) (str "/m/a.mp4") 0 = Return r)
  /\ (Subler.buildTagCommand 4 (mkEnv None) (files ps) example_store
        (Subler.new (str "/m/a.mp4") 0%nat)).1 <> OutOfFuel.
Proof.
  cbv zeta.
  apply (buildTagCommand_terminates
           [str "/m/a.mp4"; str "/m/a.0.mp4"; str "/m/a.1.mp4"] (mkEnv None)
           example_store (Subler.new (str "/m/a.mp4") 0%nat)).
  apply (bool_decide_unpack _). vm_compute. reflexivity.
Defined.

(** X3. The destination of a returned command is the escaping of a path
    at which no file exists; it is not the source path, and it is the
    explicit destination, or the first candidate derived from the explicit
    destination, or the first candidate derived from the source. *)
Theorem buildTagCommand_destination_fresh {path : PathModule}
  (fuel : nat) (env : Env) (fs : FileSystem) (st : Store) (s : SublerStruct)
  (cmd : SublerCommand) (st' : Store) :
  Subler.buildTagCommand fuel env fs st s = (Return cmd, st') ->
  exists d,
    args cmd !! 3%nat
    = Some (replace_each Subler.shell_special Atom.backslashed d)
    /\ existsSync fs d = false
    /\ d <> source s
    /\ (dest s = Some d
        \/ (exists d0, dest s = Some d0 /\ existsSync fs d0 = true
                       /\ d = Subler.candidate d0 0)
        \/ (truthy_opt (dest s) = false /\ d = Subler.candidate (source s) 0)).
Proof.
  intros Hb.
  apply buildTagCommand_Return in Hb as (He & _ & d & Hd & _ & ->).
  exists d. split; [reflexivity|].
  pose proof (determineDest_fresh _ _ _ _ Hd) as Hf.
  split; [assumption|]. split; [congruence|].
  unfold Subler.determineDest in Hd.
  destruct (dest s) as [d0|] eqn:Ed; simpl in Hd.
  - destruct (truthy d0) eqn:Et.
    + destruct (existsSync fs d0) eqn:E0.
      * apply nextAvailablePath_Some in Hd as [-> _]. right. left. eauto.
      * injection Hd as <-. now left.
    + apply nextAvailablePath_Some in Hd as [-> _]. right. right. auto.
  - apply nextAvailablePath_Some in Hd as [-> _]. right. right. auto.
Qed.

Lemma buildTagCommand_destination_fresh_witness :
  Subler.buildTagCommand 1 (mkEnv None) (files [str "/m/a.mp4"]) example_store
    (Subler.new (str "/m/a.mp4") 0%nat)
  = (Return example_command, example_store_after)
  /\ exists d,
       args example_command !! 3%nat
       = Some (replace_each Subler.shell_special Atom.backslashed d)
       /\ existsSync (files [str "/m/a.mp4"]) d = false
       /\ d <> str "/m/a.mp4".
Proof.
  split; [exact example_call|].
  destruct (buildTagCommand_destination_fresh _ _ _ _ _ _ _ example_call)
    as (d & Ha & Hf & Hn & _).
  exists d. auto.
Defined.

(** X4. With the source present and an explicit, non-empty destination
    at which no file exists, [buildTagCommand] returns the command whose
    destination is that path, escaped, whatever other files exist; no
    suffix search is run, so that this holds without any fuel. *)
Theorem buildTagCommand_explicit_destination {path : PathModule}
  (fuel : nat) (env : Env) (fs : FileSystem) (st : Store) (s : SublerStruct)
  (d : jsstring) :
  existsSync fs (source s) = true ->
  dest s = Some d ->
  d <> [] ->
  existsSync fs d = false ->
  (Subler.buildTagCommand fuel env fs st s).1
  = Return {| command := Subler.executable env;
              args := [str "-source";
                       replace_each Subler.shell_special Atom.backslashed (source s);
                       str "-dest";
                       replace_each Subler.shell_special Atom.backslashed d]
                      ++ Atoms.args (pushed st s) (atoms s)
                      ++ Subler.switches s |}.
Proof.
  intros He Hd Hne Hf.
  unfold Subler.buildTagCommand. rewrite He. simpl negb. cbv iota. cbn [fst].
  unfold Subler.determineDest. rewrite Hd. simpl.
  apply truthy_nonempty in Hne. rewrite Hne, Hf. simpl. rewrite Hne. simpl.
  replace (if truthy_opt (MediaKind_value <$> mediaKind s)
           then match mediaKind s with
                | Some k => Atoms.addAtom (atoms s)
                              (mkAtom (str "Media Kind") (MediaKind_value k)) st
                | None => st
                end
           else st) with (pushed st s); [reflexivity|].
  unfold pushed. destruct (mediaKind s); simpl; [|reflexivity].
  now rewrite MediaKind_value_truthy.
Qed.

Lemma buildTagCommand_explicit_destination_witness :
  (Subler.buildTagCommand 0 (mkEnv None)
     (files [str "in.mp4"; str "in.0.mp4"; str "out.0.mp4"]) example_store
     (Subler.set_dest (str "out.mp4") (Subler.new (str "in.mp4") 0%nat))).1
  = Return
      {| command := Subler.executable (mkEnv None);
         args := [str "-source";
                  replace_each Subler.shell_special Atom.backslashed (str "in.mp4");
                  str "-dest";
                  replace_each Subler.shell_special Atom.backslashed (str "out.mp4")]
                 ++ Atoms.args
                      (pushed example_store
                         (Subler.set_dest (str "out.mp4")
                            (Subler.new (str "in.mp4") 0%nat))) 0%nat
                 ++ Subler.switches
                      (Subler.set_dest (str "out.mp4")
                         (Subler.new (str "in.mp4") 0%nat)) |}.
Proof.
  apply (buildTagCommand_explicit_destination 0 (mkEnv None)
           (files [str "in.mp4"; str "in.0.mp4"; str "out.0.mp4"]) example_store
           (Subler.set_dest (str "out.mp4") (Subler.new (str "in.mp4") 0%nat))
           (str "out.mp4")).
  - vm_compute. reflexivity.
  - reflexivity.
  - discriminate.
  - vm_compute. reflexivity.
Defined.

(** X5. The empty string is not taken as a destination: on a builder
    without destination, setting the destination to the empty string
    changes nothing to the outcome of [buildTagCommand] nor to the store
    it leaves. *)
Theorem buildTagCommand_empty_destination {path : PathModule}
  (fuel : nat) (env : Env) (fs : FileSystem) (st : Store) (s : SublerStruct) :
  dest s = None ->
  Subler.buildTagCommand fuel env fs st (Subler.set_dest [] s)
  = Subler.buildTagCommand fuel env fs st s.
Proof.
  intros Hd. unfold Subler.buildTagCommand, Subler.determineDest, Subler.switches.
  rewrite Hd. reflexivity.
Qed.

Lemma buildTagCommand_empty_destination_witness :
  Subler.buildTagCommand 1 (mkEnv None) (files [str "/m/a.mp4"]) example_store
    (Subler.set_dest [] (Subler.new (str "/m/a.mp4") 0%nat))
  = (Return example_command, example_store_after).
Proof.
  rewrite (buildTagCommand_empty_destination 1 (mkEnv None)
             (files [str "/m/a.mp4"]) example_store
             (Subler.new (str "/m/a.mp4") 0%nat) eq_refl).
  exact example_call.
Defined.

(** ** What [buildTagCommand] does to the store *)

Lemma buildTagCommand_source_missing_store {path : PathModule}
  (fuel : nat) (env : Env) (fs : FileSystem) (st : Store) (s : SublerStruct) :
  existsSync fs (source s) = false ->
  (Subler.buildTagCommand fuel env fs st s).2 = st.
Proof. intros He. unfold Subler.buildTagCommand. now rewrite He. Qed.

Lemma pushed_cases (st : Store) (s : SublerStruct) :
  pushed st s = st
  \/ exists a, pushed st s = Atoms.addAtom (atoms s) a st.
Proof. unfold pushed. destruct (mediaKind s); eauto. Qed.

Lemma buildTagCommand_store_cases {path : PathModule}
  (fuel : nat) (env : Env) (fs : FileSystem) (st : Store) (s : SublerStruct) :
  (Subler.buildTagCommand fuel env fs st s).2 = st
  \/ (Subler.buildTagCommand fuel env fs st s).2 = pushed st s.
Proof.
  destruct (existsSync fs (source s)) eqn:He.
  - right. now apply buildTagCommand_store.
  - left. now rewrite buildTagCommand_source_missing_store.
Qed.

(** X6. Whatever its outcome, a call of [buildTagCommand] leaves every
    collection other than the builder's as it was, allocates and frees
    nothing, and keeps the atoms already in the builder's collection, in
    their order, at the front of it. *)
Theorem buildTagCommand_frame {path : PathModule}
  (fuel : nat) (env : Env) (fs : FileSystem) (st : Store) (s : SublerStruct) :
  (forall l : loc, l <> atoms s ->
     (Subler.buildTagCommand fuel env fs st s).2 !! l = st !! l)
  /\ dom (Subler.buildTagCommand fuel env fs st s).2 = dom st
  /\ (forall l : loc,
        Atoms.inner st l
        `prefix_of` Atoms.inner (Subler.buildTagCommand fuel env fs st s).2 l).
Proof.
  assert (Hc : (Subler.buildTagCommand fuel env fs st s).2 = st
               \/ exists a, (Subler.buildTagCommand fuel env fs st s).2
                            = Atoms.addAtom (atoms s) a st).
  { destruct (buildTagCommand_store_cases fuel env fs st s) as [H|H];
      [now left|]. rewrite H. apply pushed_cases. }
  destruct Hc as [-> | [a ->]]; [repeat split; reflexivity|].
  unfold Atoms.addAtom. repeat split.
  - intros l Hl. now apply lookup_alter_ne.
  - apply dom_alter_L.
  - intros l. unfold Atoms.inner. rewrite lookup_alter.
    case_decide; [subst l|reflexivity].
    destruct (st !! atoms s) as [xs|]; simpl; [|reflexivity].
    now apply prefix_app_r.
Qed.

(** ** Repeated calls *)

Lemma metadata_flag_snoc (xs : list AtomStruct) (a : AtomStruct) :
  Spec.metadata_flag (xs ++ [a])
  = [str "-metadata"; concat (map Atom.arg xs) ++ Atom.arg a].
Proof.
  destruct xs as [|x xs]; simpl.
  - now rewrite app_nil_r.
  - rewrite map_app, concat_app. simpl. now rewrite app_nil_r, app_assoc.
Qed.

(** X7. Two successive returning calls on the same builder and the same
    filesystem, the media kind being set: the second command is the first
    one but for its metadata argument, which carries the rendering of the
    Media Kind atom once more. *)
Theorem buildTagCommand_twice {path : PathModule}
  (fuel1 fuel2 : nat) (env : Env) (fs : FileSystem) (st st1 st2 : Store)
  (s : SublerStruct) (k : MediaKind) (xs : list AtomStruct)
  (cmd1 cmd2 : SublerCommand) :
  mediaKind s = Some k ->
  st !! atoms s = Some xs ->
  Subler.buildTagCommand fuel1 env fs st s = (Return cmd1, st1) ->
  Subler.buildTagCommand fuel2 env fs st1 s = (Return cmd2, st2) ->
  let mk := Atom.arg (mkAtom (str "Media Kind") (MediaKind_value k)) in
  args cmd1 !! 5%nat = Some (concat (map Atom.arg xs) ++ mk)
  /\ args cmd2 = <[5%nat := concat (map Atom.arg xs) ++ mk ++ mk]> (args cmd1)
  /\ command cmd2 = command cmd1.
Proof.
  intros Hk Hl H1 H2 mk.
  apply buildTagCommand_Return in H1 as (_ & -> & d1 & Hd1 & _ & ->).
  apply buildTagCommand_Return in H2 as (_ & -> & d2 & Hd2 & _ & ->).
  apply (determineDest_fuel_mono _ fuel2) in Hd1.
  apply (determineDest_fuel_mono _ fuel1) in Hd2.
  rewrite Nat.add_comm in Hd2. rewrite Hd1 in Hd2. injection Hd2 as <-.
  assert (Hp1 : pushed st s
                = <[atoms s := xs ++ [mkAtom (str "Media Kind") (MediaKind_value k)]]> st).
  { unfold pushed. rewrite Hk. now apply addAtom_allocated. }
  assert (Hp2 : pushed (pushed st s) s !! atoms s
                = Some ((xs ++ [mkAtom (str "Media Kind") (MediaKind_value k)])
                        ++ [mkAtom (str "Media Kind") (MediaKind_value k)])).
  { unfold pushed at 1. rewrite Hk.
    erewrite addAtom_allocated by (rewrite Hp1; apply lookup_insert_eq).
    apply lookup_insert_eq. }
  cbn [args command].
  rewrite !args_metadata_flag.
  rewrite (inner_allocated _ _ _ Hp2).
  rewrite (inner_allocated (pushed st s) (atoms s)
             (xs ++ [mkAtom (str "Media Kind") (MediaKind_value k)]))
    by (rewrite Hp1; apply lookup_insert_eq).
  rewrite !metadata_flag_snoc.
  repeat split. simpl.
  rewrite map_app, concat_app. simpl. rewrite app_nil_r.
  now rewrite <- app_assoc.
Qed.

Lemma buildTagCommand_twice_witness :
  exists cmd2 st2,
    Subler.buildTagCommand 1 (mkEnv None) (files [str "/m/a.mp4"])
      example_store_after (Subler.new (str "/m/a.mp4") 0%nat)
    = (Return cmd2, st2)
    /\ args cmd2
       = <[5%nat := str "{'Title':'Foo Bar Title'}{'Media Kind':'Movie'}{'Media Kind':'Movie'}"]>
           (args example_command).
Proof.
  eexists _, _. split; [vm_compute; reflexivity|].
  refine (proj1 (proj2 (buildTagCommand_twice 1 1 (mkEnv None)
                          (files [str "/m/a.mp4"]) example_store
                          example_store_after _ (Subler.new (str "/m/a.mp4") 0%nat)
                          MOVIE example_atoms example_command _
                          eq_refl example_store_lookup example_call _))).
  vm_compute. reflexivity.
Defined.

(** ** The builders a caller can obtain *)

Lemma configured_invariant (src : jsstring) (l : loc) (s : SublerStruct) :
  configured src l s ->
  source s = src /\ atoms s = l
  /\ chaptersPreview s = true /\ organizeGroups s = true /\ bitChunk64 s = true
  /\ exists k, mediaKind s = Some k.
Proof.
  induction 1 as [|v s _ IH|k s _ IH|d s _ IH]; simpl.
  - repeat split; eauto.
  - destruct IH as (? & ? & ? & ? & ? & ?). repeat split; assumption.
  - destruct IH as (? & ? & ? & ? & ? & ?). repeat split; eauto.
  - destruct IH as (? & ? & ? & ? & ? & ?). repeat split; assumption.
Qed.

(** X8. On a builder obtained from the constructor by the setters, a
    returned command always has the metadata flag, even when the
    collection passed to the constructor is empty, and always has the
    switches [-chapterspreview], [-organizegroups] and [-64bitchunk]: the
    class gives no way to unset the media kind or these three flags. Only
    [-optimize] depends on a setter. *)
Theorem configured_command {path : PathModule}
  (src : jsstring) (l : loc) (s : SublerStruct)
  (fuel : nat) (env : Env) (fs : FileSystem) (st st' : Store)
  (xs : list AtomStruct) (cmd : SublerCommand) :
  configured src l s ->
  st !! l = Some xs ->
  Subler.buildTagCommand fuel env fs st s = (Return cmd, st') ->
  exists d k,
    mediaKind s = Some k
    /\ args cmd
       = [str "-source"; replace_each Subler.shell_special Atom.backslashed src;
          str "-dest"; replace_each Subler.shell_special Atom.backslashed d;
          str "-metadata";
          concat (map Atom.arg xs)
          ++ Atom.arg (mkAtom (str "Media Kind") (MediaKind_value k));
          str "-chapterspreview"]
         ++ (if optimize s then [str "-optimize"] else [])
         ++ [str "-organizegroups"; str "-64bitchunk"].
Proof.
  intros Hc Hl Hb.
  apply configured_invariant in Hc as (Hs & Ha & Hcp & Hog & Hbc & k & Hk).
  apply buildTagCommand_Return in Hb as (_ & -> & d & _ & _ & ->).
  exists d, k. split; [assumption|].
  cbn [args]. rewrite args_metadata_flag. unfold Subler.switches.
  rewrite Hcp, Hog, Hbc, Hs, Ha.
  assert (Hp : pushed st s !! l
               = Some (xs ++ [mkAtom (str "Media Kind") (MediaKind_value k)])).
  { unfold pushed. rewrite Hk, Ha.
    rewrite (addAtom_allocated _ _ _ _ Hl). apply lookup_insert_eq. }
  rewrite (inner_allocated _ _ _ Hp), metadata_flag_snoc. reflexivity.
Qed.

Lemma configured_command_witness :
  exists d k,
    mediaKind (Subler.new (str "/m/a.mp4") 0%nat) = Some k
    /\ args example_command
       = [str "-source";
          replace_each Subler.shell_special Atom.backslashed (str "/m/a.mp4");
          str "-dest"; replace_each Subler.shell_special Atom.backslashed d;
          str "-metadata";
          concat (map Atom.arg example_atoms)
          ++ Atom.arg (mkAtom (str "Media Kind") (MediaKind_value k));
          str "-chapterspreview"]
         ++ [str "-optimize"]
         ++ [str "-organizegroups"; str "-64bitchunk"].
Proof.
  exact (configured_command (str "/m/a.mp4") 0%nat (Subler.new (str "/m/a.mp4") 0%nat)
           1 (mkEnv None) (files [str "/m/a.mp4"]) example_store example_store_after
           example_atoms example_command
           (configured_new _ _) example_store_lookup example_call).
Defined.

(** ** What the escapings guarantee *)

(** After a replacement by the template [\$&] under an expression that
    does not match the backslash, every matched character of the result
    stands right after a backslash. *)
Lemma replace_each_backslashed_preceded (r : cre) (s : jsstring) :
  cre_match r CHAR_BACKSLASH = false ->
  forall (i : nat) (c : N),
    replace_each r Atom.backslashed s !! i = Some c ->
    cre_match r c = true ->
    exists j : nat, i = S j
      /\ replace_each r Atom.backslashed s !! j = Some CHAR_BACKSLASH.
Proof.
  intros Hbs. induction s as [|x s IH]; intros i c Hi Hc; [discriminate|].
  cbn [replace_each] in *. destruct (cre_match r x) eqn:Ex.
  - change (Atom.backslashed [x] ++ replace_each r Atom.backslashed s)
      with (CHAR_BACKSLASH :: x :: replace_each r Atom.backslashed s) in *.
    destruct i as [|[|i]]; simpl in Hi.
    + injection Hi as <-. congruence.
    + exists 0%nat. auto.
    + destruct (IH _ _ Hi Hc) as (j & -> & Hj). exists (S (S j)). auto.
  - destruct i as [|i]; simpl in Hi.
    + injection Hi as <-. congruence.
    + destruct (IH _ _ Hi Hc) as (j & -> & Hj). exists (S j). auto.
Qed.

Lemma replace_each_Forall (P : N -> Prop) (r : cre) (s : jsstring) :
  P CHAR_BACKSLASH -> Forall P s ->
  Forall P (replace_each r Atom.backslashed s).
Proof.
  intros Hb. induction 1 as [|x s Hx _ IH]; simpl; [constructor|].
  destruct (cre_match r x); repeat constructor; assumption.
Qed.

Lemma replace_each_unmatched (r : cre) (t : jsstring -> jsstring) (s : jsstring) :
  Forall (fun c => cre_match r c = false) s -> replace_each r t s = s.
Proof.
  induction 1 as [|x s Hx _ IH]; simpl; [reflexivity|]. now rewrite Hx, IH.
Qed.

Lemma replace_runs_from_unmatched (r : cre) (rep : jsstring) (b : bool)
  (s : jsstring) :
  Forall (fun c => cre_match r c = false) s -> replace_runs_from r rep b s = s.
Proof.
  intros H. revert b. induction H as [|x s Hx _ IH]; intros b; simpl;
    [reflexivity|]. now rewrite Hx, IH.
Qed.

(** The result of a replacement of runs has no character of the runs
    left, when the replacement itself has none. *)
Lemma replace_runs_from_clean (r : cre) (rep : jsstring) (b : bool) (s : jsstring) :
  Forall (fun c => cre_match r c = false) rep ->
  Forall (fun c => cre_match r c = false) (replace_runs_from r rep b s).
Proof.
  intros Hrep. revert b. induction s as [|x s IH]; intros b; simpl; [constructor|].
  destruct (cre_match r x) eqn:Ex.
  - destruct b; simpl; [apply IH|]. apply Forall_app. split; [assumption|apply IH].
  - constructor; [assumption|apply IH].
Qed.

(** X9. The rendering of an atom is [{'tag':] followed by the escaped
    value, between single quotes unless the tag is Artwork, and by [}].
    The escaped value has no line feed, no carriage return and no vertical
    line; each of its single quotes stands right after a backslash; and it
    is the value itself when the value has none of these four
    characters. The tag is written as it is. *)
Theorem arg_escaped_value (a : AtomStruct) :
  exists e : jsstring,
    Atom.arg a
    = str "{'" ++ tag a ++ str "':"
      ++ (if decide (tag a = str "Artwork") then e else str "'" ++ e ++ str "'")
      ++ str "}"
    /\ Forall (fun c => c <> CHAR_LINE_FEED /\ c <> CHAR_CARRIAGE_RETURN
                        /\ c <> CHAR_VERTICAL_LINE) e
    /\ (forall i : nat, e !! i = Some CHAR_SINGLE_QUOTE ->
          exists j : nat, i = S j /\ e !! j = Some CHAR_BACKSLASH)
    /\ (Forall (fun c => c <> CHAR_LINE_FEED /\ c <> CHAR_CARRIAGE_RETURN
                         /\ c <> CHAR_VERTICAL_LINE /\ c <> CHAR_SINGLE_QUOTE)
          (value a) ->
        e = value a).
Proof.
  exists (replace_each Atom.quote Atom.backslashed
            (replace_runs Atom.newlines [CHAR_SPACE] (value a))).
  split; [|split; [|split]].
  - unfold Atom.arg. rewrite AtomTag_artwork.
    destruct (decide (tag a = str "Artwork")) as [E|E].
    + rewrite bool_decide_eq_true_2 by (now rewrite E). reflexivity.
    + rewrite bool_decide_eq_false_2 by congruence. reflexivity.
  - apply replace_each_Forall; [repeat split; discriminate|].
    eapply Forall_impl.
    + apply replace_runs_from_clean. repeat constructor.
    + intros c Hc. simpl in Hc.
      repeat split; intros ->; discriminate Hc.
  - intros i Hi.
    eapply replace_each_backslashed_preceded; eauto; reflexivity.
  - intros Hv.
    rewrite replace_each_unmatched.
    + apply replace_runs_from_unmatched.
      eapply Forall_impl; [exact Hv|]. intros c (H1 & H2 & H3 & _). simpl.
      destruct (N.eqb_spec c CHAR_LINE_FEED); [congruence|].
      destruct (N.eqb_spec c CHAR_VERTICAL_LINE); [congruence|].
      destruct (N.eqb_spec c CHAR_CARRIAGE_RETURN); [congruence|]. reflexivity.
    + unfold replace_runs. rewrite replace_runs_from_unmatched.
      * eapply Forall_impl; [exact Hv|]. intros c (_ & _ & _ & H4). simpl.
        now destruct (N.eqb_spec c CHAR_SINGLE_QUOTE).
      * eapply Forall_impl; [exact Hv|]. intros c (H1 & H2 & H3 & _). simpl.
        destruct (N.eqb_spec c CHAR_LINE_FEED); [congruence|].
        destruct (N.eqb_spec c CHAR_VERTICAL_LINE); [congruence|].
        destruct (N.eqb_spec c CHAR_CARRIAGE_RETURN); [congruence|]. reflexivity.
Qed.

(** X10. In a returned command, every whitespace character, ampersand
    and single quote of the source argument and of the destination
    argument stands right after a backslash; and a source path without
    any of these characters is passed as it is. *)
Theorem buildTagCommand_paths_guarded {path : PathModule}
  (fuel : nat) (env : Env) (fs : FileSystem) (st st' : Store) (s : SublerStruct)
  (cmd : SublerCommand) :
  Subler.buildTagCommand fuel env fs st s = (Return cmd, st') ->
  (forall (n : nat) (w : jsstring),
      n = 1%nat \/ n = 3%nat ->
      args cmd !! n = Some w ->
      forall (i : nat) (c : N),
        w !! i = Some c ->
        isWhiteSpace c = true \/ c = CHAR_AMPERSAND \/ c = CHAR_SINGLE_QUOTE ->
        exists j : nat, i = S j /\ w !! j = Some CHAR_BACKSLASH)
  /\ (Forall (fun c => isWhiteSpace c = false /\ c <> CHAR_AMPERSAND
                       /\ c <> CHAR_SINGLE_QUOTE) (source s) ->
      args cmd !! 1%nat = Some (source s)).
Proof.
  intros Hb.
  apply buildTagCommand_Return in Hb as (_ & _ & d & _ & _ & ->).
  split.
  - intros n w Hn Hw i c Hi Hc.
    assert (Hm : cre_match Subler.shell_special c = true).
    { simpl. destruct Hc as [-> | [-> | ->]]; [reflexivity| |].
      - now rewrite orb_true_r.
      - now rewrite !orb_true_r. }
    destruct Hn as [-> | ->]; simpl in Hw; injection Hw as <-;
      eapply replace_each_backslashed_preceded; eauto; reflexivity.
  - intros Hs. cbn [args]. simpl. f_equal.
    apply replace_each_unmatched.
    eapply Forall_impl; [exact Hs|]. intros c (H1 & H2 & H3). simpl.
    rewrite H1. simpl.
    destruct (N.eqb_spec c CHAR_AMPERSAND); [congruence|].
    now destruct (N.eqb_spec c CHAR_SINGLE_QUOTE).
Qed.

Lemma buildTagCommand_paths_guarded_witness :
  args example_command !! 1%nat = Some (str "/m/a.mp4").
Proof.
  apply (proj2 (buildTagCommand_paths_guarded 1 (mkEnv None) (files [str "/m/a.mp4"])
                  example_store example_store_after
                  (Subler.new (str "/m/a.mp4") 0%nat) example_command example_call)).
  repeat constructor; discriminate.
Defined.

(** ** Collections *)

(** X11. [addAtoms] appends the atoms of the other collection, in their
    order, after those of the receiver; the other collection is left as
    it was; a collection added to itself is doubled. The metadata flag of
    the receiver then carries the renderings of its own atoms followed by
    those of the other collection. *)
Theorem addAtoms_appends (st : Store) (l l' : loc) (xs ys : list AtomStruct) :
  st !! l = Some xs ->
  st !! l' = Some ys ->
  Atoms.addAtoms l l' st = <[l := xs ++ ys]> st
  /\ (l <> l' -> Atoms.addAtoms l l' st !! l' = Some ys)
  /\ (l = l' -> Atoms.addAtoms l l' st !! l = Some (xs ++ xs))
  /\ Atoms.args (Atoms.addAtoms l l' st) l
     = match xs ++ ys with
       | [] => []
       | _ :: _ =>
           [str "-metadata"; concat (map Atom.arg xs) ++ concat (map Atom.arg ys)]
       end.
Proof.
  intros Hl Hl'.
  assert (He : Atoms.addAtoms l l' st = <[l := xs ++ ys]> st).
  { unfold Atoms.addAtoms. rewrite (inner_allocated _ _ _ Hl').
    apply map_eq. intros i. rewrite lookup_alter, lookup_insert.
    case_decide; [subst i; now rewrite Hl | reflexivity]. }
  split; [exact He|]. rewrite He. split; [|split].
  - intros Hne. now rewrite lookup_insert_ne.
  - intros <-. rewrite lookup_insert_eq. congruence.
  - rewrite args_metadata_flag.
    rewrite (inner_allocated _ l (xs ++ ys)) by apply lookup_insert_eq.
    unfold Spec.metadata_flag. destruct (xs ++ ys) eqn:E; [reflexivity|].
    now rewrite <- E, map_app, concat_app.
Qed.

Lemma addAtoms_appends_witness :
  Atoms.args (Atoms.addAtoms 0%nat 0%nat example_store) 0%nat
  = [str "-metadata"; str "{'Title':'Foo Bar Title'}{'Title':'Foo Bar Title'}"].
Proof.
  destruct (addAtoms_appends example_store 0%nat 0%nat example_atoms example_atoms
              example_store_lookup example_store_lookup) as (_ & _ & _ & H).
  rewrite H. reflexivity.
Defined.

(** The methods assigned by the closing loop are the entries of the
    table: no name occurs twice in it. *)
Lemma tag_methods_entries (ident t : jsstring) :
  tag_methods !! ident = Some t <-> (ident, t) ∈ AtomTag.
Proof.
  assert (Hm : tag_methods = list_to_map AtomTag) by (vm_compute; reflexivity).
  rewrite Hm. symmetry. apply elem_of_list_to_map.
  apply (bool_decide_unpack _). vm_compute. reflexivity.
Qed.

(** X12. The loop that closes the module gives the collection one method
    per entry of [AtomTag], which appends an atom of the label of the
    entry and of the given value after the atoms already there; a name
    that is not a key of the table gets no method. The labels these
    methods write are exactly those listed by [metadataTags], and no such
    method takes the place of a member that the classes define. *)
Theorem tag_methods_cover :
  (forall (ident t v : jsstring) (l : loc) (st : Store) (xs : list AtomStruct),
      (ident, t) ∈ AtomTag ->
      st !! l = Some xs ->
      call_tag_method ident v l st = Some (<[l := xs ++ [mkAtom t v]]> st))
  /\ (forall (ident v : jsstring) (l : loc) (st : Store),
        ident ∉ map fst AtomTag -> call_tag_method ident v l st = None)
  /\ (forall t : jsstring,
        t ∈ Atoms.metadataTags <-> exists ident, tag_methods !! ident = Some t)
  /\ Forall (fun e => fst e ∉ class_member_names) AtomTag.
Proof.
  split; [|split; [|split]].
  - intros ident t v l st xs He Hl. unfold call_tag_method.
    apply tag_methods_entries in He. rewrite He.
    now rewrite (addAtom_allocated _ _ _ _ Hl).
  - intros ident v l st Hn. unfold call_tag_method.
    destruct (tag_methods !! ident) as [t|] eqn:E; [|reflexivity].
    apply tag_methods_entries in E. exfalso. apply Hn.
    apply list_elem_of_fmap. now exists (ident, t).
  - intros t.
    assert (Hm : Atoms.metadataTags = map snd AtomTag) by (vm_compute; reflexivity).
    rewrite Hm. rewrite list_elem_of_fmap. split.
    + intros ([ident t'] & -> & He). exists ident. now apply tag_methods_entries.
    + intros [ident He]. apply tag_methods_entries in He. now exists (ident, t).
  - apply (bool_decide_unpack _). vm_compute. reflexivity.
Qed.
